(** * OTP service of the tutor web app: a shallow embedding

    The module embedded here is the one-time-passcode store of the backend
    (the third module of [src/backend/src/server.js]: [generateOTP],
    [isValidEmail], [isValidOTPFormat], [storeOTP], [verifyOTP],
    [getOTPInfo] and the cleanup timer).

    Conventions of the embedding.
    - A JavaScript string is a [string]: a sequence of code units below 256
      (Latin-1).  [trim], [toLowerCase], [\s] and [\d] are written out for
      that range.
    - A JavaScript number that holds an integer (timestamps, counters) is a
      [Z]; every value that occurs is far below 2^53.
    - [otpStore] is a [gmap string OTPRecord]; the functions pass it
      explicitly and return the store they leave behind.
    - [Date.now()] is an input: every reading the source takes is one
      argument, in the order of the source lines.
    - [bcrypt] and [crypto.randomInt] are libraries outside the repository:
      [bcrypt.hash] and [bcrypt.compare] are the variables of a section,
      the salt drawn by [bcrypt.hash] and the integer drawn by
      [crypto.randomInt] are inputs.  Every call to [bcrypt] is recorded in
      the order it is made.
    - The functions are [async]; the embedding is of one call running
      alone, with nothing interleaved at its [await]s. *)

From Stdlib Require Import ZArith String Ascii List Bool Lia.
From stdpp Require Import gmap strings fin_maps.

Local Open Scope string_scope.
Local Open Scope Z_scope.

(** ** JavaScript strings *)

Module JSString.

Definition code (c : ascii) : N := N_of_ascii c.

(** [WhiteSpace] and [LineTerminator] code units below 256: TAB, LF, VT,
    FF, CR, SP and NBSP.  This is the set [trim] strips and [\s] matches. *)
Definition isWhiteSpace (c : ascii) : bool :=
  let n := code c in
  ((9 <=? n) && (n <=? 13) || (n =? 32) || (n =? 160))%N.

(** [\d] *)
Definition isDigit (c : ascii) : bool :=
  let n := code c in ((48 <=? n) && (n <=? 57))%N.

(** Upper-case letters below 256: A-Z, and U+00C0..U+00DE without the
    multiplication sign U+00D7; each is 32 below its lower-case form. *)
Definition isUpper (c : ascii) : bool :=
  let n := code c in
  ((65 <=? n) && (n <=? 90)
   || (192 <=? n) && (n <=? 222) && negb (n =? 215))%N.

Definition toLowerChar (c : ascii) : ascii :=
  if isUpper c then ascii_of_N (code c + 32) else c.

Fixpoint toLowerCase (s : string) : string :=
  match s with
  | EmptyString => EmptyString
  | String c s' => String (toLowerChar c) (toLowerCase s')
  end.

Fixpoint trimStart (s : string) : string :=
  match s with
  | EmptyString => EmptyString
  | String c s' => if isWhiteSpace c then trimStart s' else s
  end.

Definition trimEnd (s : string) : string :=
  String.rev (trimStart (String.rev s)).

Definition trim (s : string) : string := trimEnd (trimStart s).

Fixpoint repeat (s : string) (n : nat) : string :=
  match n with
  | O => EmptyString
  | S n' => s ++ repeat s n'
  end.

Fixpoint take (n : nat) (s : string) : string :=
  match n, s with
  | S n', String c s' => String c (take n' s')
  | _, _ => EmptyString
  end.

(** [String.prototype.padStart]: nothing is added when the string is long
    enough or the filler is empty; otherwise the filler is repeated and
    cut to the missing length. *)
Definition padStart (s : string) (targetLength : nat) (padString : string)
  : string :=
  let len := String.length s in
  if (targetLength <=? len)%nat then s
  else if String.eqb padString EmptyString then s
  else
    let fillLen := (targetLength - len)%nat in
    take fillLen (repeat padString fillLen) ++ s.

Fixpoint forallb (p : ascii -> bool) (s : string) : bool :=
  match s with
  | EmptyString => true
  | String c s' => p c && forallb p s'
  end.

End JSString.

(** ** JavaScript numbers that hold integers *)

Module JSNumber.

Definition digitChar (d : Z) : ascii := ascii_of_N (48 + Z.to_N d).

(** The decimal digits of [n >= 0], most significant first, in front of
    [acc]. *)
Fixpoint digits (fuel : nat) (n : Z) (acc : string) : string :=
  match fuel with
  | O => acc
  | S fuel' =>
      let acc' := String (digitChar (n mod 10)) acc in
      if n <? 10 then acc' else digits fuel' (n / 10) acc'
  end.

(** A number below [2^(k+1)] has at most [k+1] decimal digits. *)
Definition digitsFuel (n : Z) : nat := S (Z.to_nat (Z.log2 n)).

(** [Number.prototype.toString()] on an integer. *)
Definition toString (n : Z) : string :=
  if n <? 0 then String "-" (digits (digitsFuel (- n)) (- n) EmptyString)
  else digits (digitsFuel n) n EmptyString.

Definition digitValue (c : ascii) : Z := Z.of_N (N_of_ascii c) - 48.

(** The number a string of decimal digits denotes. *)
Fixpoint valueFrom (acc : Z) (s : string) : Z :=
  match s with
  | EmptyString => acc
  | String c s' => valueFrom (10 * acc + digitValue c) s'
  end.

Definition value (s : string) : Z := valueFrom 0 s.

End JSNumber.

(** ** Regular expressions

    The two patterns of the module use character classes, concatenation and
    [+] only, between [^] and [$]; [test] on such a pattern asks whether the
    whole string is in its language, which derivatives decide. *)

Module Regex.

Inductive regex : Type :=
| Void : regex
| Eps : regex
| Class (p : ascii -> bool) : regex
| Cat (r1 r2 : regex) : regex
| Alt (r1 r2 : regex) : regex
| Star (r : regex) : regex.

Definition Plus (r : regex) : regex := Cat r (Star r).

Definition Chr (c : ascii) : regex := Class (Ascii.eqb c).

(** [r{n}] *)
Fixpoint Times (n : nat) (r : regex) : regex :=
  match n with
  | O => Eps
  | S n' => Cat r (Times n' r)
  end.

Fixpoint nullable (r : regex) : bool :=
  match r with
  | Void => false
  | Eps => true
  | Class _ => false
  | Cat r1 r2 => nullable r1 && nullable r2
  | Alt r1 r2 => nullable r1 || nullable r2
  | Star _ => true
  end.

Fixpoint deriv (c : ascii) (r : regex) : regex :=
  match r with
  | Void => Void
  | Eps => Void
  | Class p => if p c then Eps else Void
  | Cat r1 r2 =>
      if nullable r1
      then Alt (Cat (deriv c r1) r2) (deriv c r2)
      else Cat (deriv c r1) r2
  | Alt r1 r2 => Alt (deriv c r1) (deriv c r2)
  | Star r1 => Cat (deriv c r1) (Star r1)
  end.

(** [/^r$/.test(s)] *)
Fixpoint test (r : regex) (s : string) : bool :=
  match s with
  | EmptyString => nullable r
  | String c s' => test (deriv c r) s'
  end.

(** The language of a pattern. *)
Inductive matches : regex -> string -> Prop :=
| MEps : matches Eps EmptyString
| MClass p c : p c = true -> matches (Class p) (String c EmptyString)
| MCat r1 r2 s1 s2 :
    matches r1 s1 -> matches r2 s2 -> matches (Cat r1 r2) (s1 ++ s2)
| MAltL r1 r2 s : matches r1 s -> matches (Alt r1 r2) s
| MAltR r1 r2 s : matches r2 s -> matches (Alt r1 r2) s
| MStarNil r : matches (Star r) EmptyString
| MStarApp r s1 s2 :
    matches r s1 -> matches (Star r) s2 -> matches (Star r) (s1 ++ s2).

End Regex.

(** ** The data model *)

(** The values the exported functions can be called with.  Only strings
    get past the validators; the other values are kept because the
    validators test for them ([!email], [typeof email !== "string"]). *)
Inductive JSValue : Type :=
| JSUndefined : JSValue
| JSNull : JSValue
| JSBool (b : bool) : JSValue
| JSNum (n : Z) : JSValue
| JSStr (s : string) : JSValue.

Coercion JSStr : string >-> JSValue.

(** [!v] is false on a truthy value. *)
Definition truthy (v : JSValue) : bool :=
  match v with
  | JSUndefined | JSNull => false
  | JSBool b => b
  | JSNum n => negb (n =? 0)
  | JSStr s => negb (String.eqb s EmptyString)
  end.

Definition typeofString (v : JSValue) : bool :=
  match v with
  | JSStr _ => true
  | _ => false
  end.

(** How a call ends: it returns (an [async] function resolves), or it
    throws (rejects) with a message. *)
Inductive Completion (A : Type) : Type :=
| Normal (a : A) : Completion A
| Throw (message : string) : Completion A.

Arguments Normal {A} a.
Arguments Throw {A} message.

(** The entries of [otpStore]. *)
Record OTPRecord : Type := mkOTPRecord {
  otpHash : string;
  expiresAt : Z;
  attempts : Z;
  createdAt : Z;
  lastAttemptAt : option Z
}.

Abbreviation Store := (gmap string OTPRecord).

(** The object [verifyOTP] returns, [{valid, reason?}]. *)
Record VerifyResult : Type := mkVerifyResult {
  valid : bool;
  reason : option string
}.

(** The object [getOTPInfo] returns. *)
Record OTPInfo : Type := mkOTPInfo {
  info_email : string;
  info_expiresAt : Z;
  info_attempts : Z;
  info_remainingAttempts : Z;
  info_isExpired : bool;
  info_createdAt : Z;
  info_lastAttemptAt : option Z
}.

(** A call to the [bcrypt] library. *)
Inductive BcryptCall : Type :=
| HashCall (data : string) (saltRounds : Z) : BcryptCall
| CompareCall (data hash : string) : BcryptCall.

(** What a call leaves behind: how it ended, the store, and the calls to
    [bcrypt] it made, first to last. *)
Record Run (A : Type) : Type := mkRun {
  completion : Completion A;
  storeAfter : Store;
  bcryptCalls : list BcryptCall
}.

Arguments mkRun {A} completion storeAfter bcryptCalls.
Arguments completion {A} r.
Arguments storeAfter {A} r.
Arguments bcryptCalls {A} r.

(** ** Configuration constants *)

Definition OTP_LENGTH : nat := 6.
Definition OTP_EXPIRATION_MS : Z := 5 * 60 * 1000.
Definition MAX_VERIFICATION_ATTEMPTS : Z := 5.
Definition CLEANUP_INTERVAL_MS : Z := 60 * 1000.

(** The second argument of the two dummy comparisons of [verifyOTP]. *)
Definition DUMMY_HASH : string := "$2b$10$dummyhashforsecuritypurposes".

(** ** The outcomes of [verifyOTP], by the names the specification gives
    them *)

Definition Valid : VerifyResult := mkVerifyResult true None.
Definition InvalidEmailFormat : VerifyResult :=
  mkVerifyResult false (Some "Invalid email format").
Definition InvalidOTPFormat : VerifyResult :=
  mkVerifyResult false (Some "Invalid OTP format").
Definition NotFound : VerifyResult :=
  mkVerifyResult false (Some "OTP not found or expired").
Definition Expired : VerifyResult :=
  mkVerifyResult false (Some "OTP expired").
Definition AttemptsExceeded : VerifyResult :=
  mkVerifyResult false (Some "Maximum verification attempts exceeded").
Definition Invalid : VerifyResult :=
  mkVerifyResult false (Some "Invalid OTP").

(** ** Validators *)

(** [[^\s@]] *)
Definition notSpaceNorAt (c : ascii) : bool :=
  negb (JSString.isWhiteSpace c || Ascii.eqb c "@").

(** [/^[^\s@]+@[^\s@]+\.[^\s@]+$/] *)
Definition emailRegex : Regex.regex :=
  Regex.Cat (Regex.Plus (Regex.Class notSpaceNorAt))
    (Regex.Cat (Regex.Chr "@")
       (Regex.Cat (Regex.Plus (Regex.Class notSpaceNorAt))
          (Regex.Cat (Regex.Chr ".")
             (Regex.Plus (Regex.Class notSpaceNorAt))))).

(** [/^\d{6}$/] *)
Definition otpRegex : Regex.regex :=
  Regex.Times 6 (Regex.Class JSString.isDigit).

Definition isValidEmail (email : JSValue) : bool :=
  if negb (truthy email) || negb (typeofString email) then false
  else
    match email with
    | JSStr s =>
        Regex.test emailRegex (JSString.toLowerCase (JSString.trim s))
    | _ => false
    end.

Definition isValidOTPFormat (otp : JSValue) : bool :=
  if negb (truthy otp) || negb (typeofString otp) then false
  else
    match otp with
    | JSStr s => Regex.test otpRegex s
    | _ => false
    end.

(** A non-empty string without white space and without [@]. *)
Definition emailPart (s : string) : Prop :=
  s <> EmptyString /\ JSString.forallb notSpaceNorAt s = true.

(** [email.trim().toLowerCase()] *)
Definition normalize (email : string) : string :=
  JSString.toLowerCase (JSString.trim email).

(** ** The code generator *)

(** [crypto.randomInt(min, max)] returns an integer [n] with
    [min <= n < max]; [draw] is the integer it returned. *)
Definition randomIntRange (min max draw : Z) : Prop := min <= draw < max.

Definition generateOTP (draw : Z) : string :=
  JSString.padStart (JSNumber.toString draw) OTP_LENGTH "0".

(** The arguments [generateOTP] gives to [crypto.randomInt]. *)
Definition generateOTP_min : Z := 100000.
Definition generateOTP_max : Z := 999999.

(** ** The cleanup timer: one run of its callback at time [now] *)

Definition cleanupExpired (now : Z) (st : Store) : Store :=
  filter (fun kv : string * OTPRecord => ~ (expiresAt kv.2 < now)) st.

(** ** The store operations, over an arbitrary [bcrypt] *)

Section OTP.

(** [bcrypt.hash(data, saltRounds)], as a function of the salt it draws. *)
Variable bcrypt_hash : string -> Z -> string -> string.

(** [bcrypt.compare(data, hash)]. *)
Variable bcrypt_compare : string -> string -> bool.

(** [storeOTP(email, otp)].  [now1], [now2] and [now3] are the readings of
    [Date.now()] for [expiresAt], for [createdAt] and in the cleanup test
    after the insertion; [salt] is the salt [bcrypt.hash] draws. *)
Definition storeOTP (now1 now2 now3 : Z) (salt : string)
    (email otp : JSValue) (st : Store) : Run unit :=
  if negb (isValidEmail email) then
    mkRun (Throw "Invalid email format") st []
  else if negb (isValidOTPFormat otp) then
    mkRun (Throw "Invalid OTP format") st []
  else
    match email, otp with
    | JSStr e, JSStr o =>
        let normalizedEmail := normalize e in
        let expiresAt_ := now1 + OTP_EXPIRATION_MS in
        let createdAt_ := now2 in
        let otpHash_ := bcrypt_hash o 10 salt in
        let st1 :=
          <[normalizedEmail :=
              mkOTPRecord otpHash_ expiresAt_ 0 createdAt_ None]> st in
        match st1 !! normalizedEmail with
        | Some existing =>
            if now3 >? expiresAt existing then
              mkRun (Normal tt) (delete normalizedEmail st1) [HashCall o 10]
            else mkRun (Normal tt) st1 [HashCall o 10]
        | None => mkRun (Normal tt) st1 [HashCall o 10]
        end
    | _, _ =>
        (* not reached: a method call on a value that is not a string *)
        mkRun (Throw "TypeError") st []
    end.

(** [verifyOTP(email, otp)].  [now1] is the reading of [Date.now()] in the
    expiry test, [now2] the one stored in [lastAttemptAt].

    [stored] is the object held by the map, so [stored.attempts += 1]
    changes the entry at once ([st1]); the later
    [otpStore.set(normalizedEmail, stored)] puts the same object back. *)
Definition verifyOTP (now1 now2 : Z) (email otp : JSValue) (st : Store)
  : Run VerifyResult :=
  if negb (isValidEmail email) then mkRun (Normal InvalidEmailFormat) st []
  else if negb (isValidOTPFormat otp) then
    mkRun (Normal InvalidOTPFormat) st []
  else
    match email, otp with
    | JSStr e, JSStr o =>
        let normalizedEmail := normalize e in
        match st !! normalizedEmail with
        | None =>
            mkRun (Normal NotFound) st [CompareCall o DUMMY_HASH]
        | Some stored =>
            if now1 >? expiresAt stored then
              mkRun (Normal Expired) (delete normalizedEmail st)
                [CompareCall o DUMMY_HASH]
            else if attempts stored >=? MAX_VERIFICATION_ATTEMPTS then
              mkRun (Normal AttemptsExceeded) (delete normalizedEmail st) []
            else
              let stored' :=
                mkOTPRecord (otpHash stored) (expiresAt stored)
                  (attempts stored + 1) (createdAt stored) (Some now2) in
              let st1 := <[normalizedEmail := stored']> st in
              let isValid := bcrypt_compare o (otpHash stored') in
              if isValid then
                mkRun (Normal Valid) (delete normalizedEmail st1)
                  [CompareCall o (otpHash stored')]
              else
                mkRun (Normal Invalid) (<[normalizedEmail := stored']> st1)
                  [CompareCall o (otpHash stored')]
        end
    | _, _ =>
        (* not reached: a method call on a value that is not a string *)
        mkRun (Throw "TypeError") st []
    end.

(** A call of [verifyOTP] with the two clock readings it takes. *)
Record VerifyCall : Type := mkVerifyCall {
  call_now1 : Z;
  call_now2 : Z;
  call_email : string;
  call_otp : string
}.

(** Calls of [verifyOTP] one after the other: what each returned, and the
    store after the last. *)
Fixpoint verifyAll (calls : list VerifyCall) (st : Store)
  : list (Completion VerifyResult) * Store :=
  match calls with
  | [] => ([], st)
  | c :: calls' =>
      let r := verifyOTP (call_now1 c) (call_now2 c) (call_email c)
                 (call_otp c) st in
      let rest := verifyAll calls' (storeAfter r) in
      (completion r :: rest.1, rest.2)
  end.

(** The record [storeOTP] builds. *)
Definition freshRecord (now1 now2 : Z) (salt otp : string) : OTPRecord :=
  mkOTPRecord (bcrypt_hash otp 10 salt) (now1 + OTP_EXPIRATION_MS) 0
    now2 None.

(** The record [verifyOTP] leaves after an attempt at time [now2]. *)
Definition attempted (now2 : Z) (stored : OTPRecord) : OTPRecord :=
  mkOTPRecord (otpHash stored) (expiresAt stored) (attempts stored + 1)
    (createdAt stored) (Some now2).

(** Well-formed arguments: both validators accept. *)
Definition wellFormed (email otp : string) : Prop :=
  isValidEmail email = true /\ isValidOTPFormat otp = true.

(** What has to hold for [verifyOTP] to return [valid: true]. *)
Definition hashMatch (now1 : Z) (email otp : string) (st : Store) : Prop :=
  isValidEmail email = true /\
  isValidOTPFormat otp = true /\
  exists stored,
    st !! normalize email = Some stored /\
    now1 <= expiresAt stored /\
    attempts stored < MAX_VERIFICATION_ATTEMPTS /\
    bcrypt_compare otp (otpHash stored) = true.

(** A call that spends an attempt on the record [stored] of the identity
    [k]: well-formed arguments for that identity, made before the record
    expires, with a code [bcrypt.compare] rejects against the stored
    hash. *)
Definition wrongCall (k : string) (stored : OTPRecord) (c : VerifyCall)
  : Prop :=
  isValidEmail (call_email c) = true /\
  normalize (call_email c) = k /\
  isValidOTPFormat (call_otp c) = true /\
  bcrypt_compare (call_otp c) (otpHash stored) = false /\
  call_now1 c <= expiresAt stored.

(** No stored counter is past the budget. *)
Definition attemptsBounded (st : Store) : Prop :=
  forall k stored,
    st !! k = Some stored -> attempts stored <= MAX_VERIFICATION_ATTEMPTS.

End OTP.

(** [getOTPInfo(email)]; [null] is [None].  [now] is the reading of
    [Date.now()] for [isExpired]. *)
Definition getOTPInfo (now : Z) (email : JSValue) (st : Store)
  : Completion (option OTPInfo) :=
  if negb (isValidEmail email) then Normal None
  else
    match email with
    | JSStr e =>
        let normalizedEmail := normalize e in
        match st !! normalizedEmail with
        | None => Normal None
        | Some stored =>
            Normal (Some (mkOTPInfo normalizedEmail (expiresAt stored)
              (attempts stored)
              (MAX_VERIFICATION_ATTEMPTS - attempts stored)
              (now >? expiresAt stored) (createdAt stored)
              (lastAttemptAt stored)))
        end
    | _ =>
        (* not reached: a method call on a value that is not a string *)
        Throw "TypeError"
    end.

(** The fields of a record other than its hash. *)
Definition metadata (stored : OTPRecord) : Z * Z * Z * option Z :=
  (expiresAt stored, attempts stored, createdAt stored, lastAttemptAt stored).

(** Two stores with the same entries up to the hashes they hold. *)
Definition sameButHashes (st1 st2 : Store) : Prop :=
  forall k, metadata <$> (st1 !! k) = metadata <$> (st2 !! k).

(** ** A [bcrypt] to run the functions with

    The hash keeps the data in front of the salt and [compare] looks for the
    data there.  It hides nothing; it stands for the library wherever the
    functions are evaluated on concrete inputs. *)

Module PlainBcrypt.

Definition hash (data : string) (saltRounds : Z) (salt : string) : string :=
  data ++ String "$" salt.

Definition compare (data hash : string) : bool :=
  String.prefix (data ++ "$") hash.

End PlainBcrypt.

(** ** A run to evaluate

    The scenario of the specification: the code 482193 is issued for
    a@b.com at time 0, and wrong codes are tried one second later. *)

Module Scenario.

Definition email : string := "a@b.com".
Definition code : string := "482193".

Definition issued : Store :=
  storeAfter (storeOTP PlainBcrypt.hash 0 0 1 "salt" email code ∅).

Definition wrong : VerifyCall := mkVerifyCall 1000 1001 email "000000".

(** The store after five wrong codes. *)
Definition afterFiveWrong : Store :=
  (verifyAll PlainBcrypt.compare [wrong; wrong; wrong; wrong; wrong]
     issued).2.

(** A store that differs from [issued] in the hash only. *)
Definition issuedOtherHash : Store :=
  storeAfter (storeOTP PlainBcrypt.hash 0 0 1 "pepper" email "111111" ∅).

End Scenario.

(** ** The other exports of the module *)

(** [deleteOTP(email)]: [Map.prototype.delete] returns whether an entry was
    there. *)
Definition deleteOTP (email : JSValue) (st : Store) : Run bool :=
  if negb (isValidEmail email) then mkRun (Normal false) st []
  else
    match email with
    | JSStr e =>
        let normalizedEmail := normalize e in
        mkRun
          (Normal (match st !! normalizedEmail with
                   | Some _ => true
                   | None => false
                   end))
          (delete normalizedEmail st) []
    | _ =>
        (* not reached: a method call on a value that is not a string *)
        mkRun (Throw "TypeError") st []
    end.

(** [clearAllOTPs()] *)
Definition clearAllOTPs (st : Store) : Run nat :=
  let count := size st in
  mkRun (Normal count) ∅ [].

(** The callback of the cleanup timer as the source writes it: the keys of
    the expired entries are collected first, then deleted one by one, and
    their number is logged when there is one at least. *)
Definition keysToDelete (now : Z) (st : Store) : list string :=
  (filter (fun kv : string * OTPRecord => expiresAt kv.2 < now)
     (map_to_list st)).*1.

Definition cleanupCallback (now : Z) (st : Store) : Store * option nat :=
  let keys := keysToDelete now st in
  (foldr delete st keys,
   if (0 <? length keys)%nat then Some (length keys) else None).

(** The timer itself.  [cleanupInterval] holds the handle of the running
    interval or [null]; [setInterval] hands out a handle it has not handed
    out before, and [activeIntervals] are the intervals set and not yet
    cleared. *)
Record TimerState : Type := mkTimerState {
  cleanupInterval : option nat;
  activeIntervals : list nat;
  handlesIssued : nat
}.

Definition startCleanupTimer (t : TimerState) : TimerState :=
  match cleanupInterval t with
  | Some _ => t
  | None =>
      let handle := handlesIssued t in
      mkTimerState (Some handle) (handle :: activeIntervals t) (S handle)
  end.

Definition stopCleanupTimer (t : TimerState) : TimerState :=
  match cleanupInterval t with
  | Some handle =>
      mkTimerState None
        (filter (fun h => h <> handle) (activeIntervals t))
        (handlesIssued t)
  | None => t
  end.

(** The module when it has been loaded: no interval yet, then
    [startCleanupTimer()]. *)
Definition timerAtLoad : TimerState :=
  startCleanupTimer (mkTimerState None [] 0).

Inductive TimerCall : Type :=
| StartTimer : TimerCall
| StopTimer : TimerCall.

Definition timerCall (c : TimerCall) (t : TimerState) : TimerState :=
  match c with
  | StartTimer => startCleanupTimer t
  | StopTimer => stopCleanupTimer t
  end.

(** Calls of the two functions, first to last. *)
Definition timerCalls (calls : list TimerCall) (t : TimerState) : TimerState :=
  fold_left (fun t c => timerCall c t) calls t.

(** The interval held in [cleanupInterval] is the only one active. *)
Definition oneInterval (t : TimerState) : Prop :=
  activeIntervals t =
  match cleanupInterval t with
  | Some handle => [handle]
  | None => []
  end.

(** ** What a call to [bcrypt] costs

    A bcrypt hash names the cost factor it was made with, in the two
    digits after its version: [$2b$10$...] was made with cost factor 10.
    [bcrypt.hash(data, saltRounds)] works at the cost factor [saltRounds];
    [bcrypt.compare(data, hash)] hashes [data] again at the cost factor
    [hash] names, so the work of a comparison is that of the hash it is
    given. *)

Definition costFactor (hash : string) : option Z :=
  match hash with
  | String "$" (String "2" (String _ (String "$"
      (String d1 (String d2 (String "$" _)))))) =>
      if JSString.isDigit d1 && JSString.isDigit d2
      then Some (10 * JSNumber.digitValue d1 + JSNumber.digitValue d2)
      else None
  | _ => None
  end.

Definition callCost (c : BcryptCall) : option Z :=
  match c with
  | HashCall _ saltRounds => Some saltRounds
  | CompareCall _ hash => costFactor hash
  end.

(** A [bcrypt] that writes its cost factor into the hash, to run the
    functions with: version, cost factor, then the data and the salt. *)

Module CostedBcrypt.

Definition twoDigits (n : Z) : string :=
  JSString.padStart (JSNumber.toString n) 2 "0".

Definition hash (data : string) (saltRounds : Z) (salt : string) : string :=
  "$2b$" ++ twoDigits saltRounds ++ "$" ++ data ++ "$" ++ salt.

Definition compare (data hash : string) : bool :=
  String.prefix (data ++ "$")
    (String.substring 7 (String.length hash - 7) hash).

End CostedBcrypt.

(** ** Runs of the module *)

Global Instance VerifyResult_eq_dec : EqDecision VerifyResult.
Proof. solve_decision. Defined.

Global Instance Completion_eq_dec {A : Type} `{EqDecision A} :
  EqDecision (Completion A).
Proof. solve_decision. Defined.

(** A call of one of the functions that change [otpStore], with the clock
    readings and the salt it takes; [CallCleanup] is a run of the timer's
    callback. *)
Inductive OTPCall : Type :=
| CallStore (now1 now2 now3 : Z) (salt : string) (email otp : JSValue)
| CallVerify (now1 now2 : Z) (email otp : JSValue)
| CallDelete (email : JSValue)
| CallClear
| CallCleanup (now : Z).

Section Runs.

Variable bcrypt_hash : string -> Z -> string -> string.
Variable bcrypt_compare : string -> string -> bool.

(** The store a call leaves. *)
Definition otpCall (c : OTPCall) (st : Store) : Store :=
  match c with
  | CallStore now1 now2 now3 salt email otp =>
      storeAfter (storeOTP bcrypt_hash now1 now2 now3 salt email otp st)
  | CallVerify now1 now2 email otp =>
      storeAfter (verifyOTP bcrypt_compare now1 now2 email otp st)
  | CallDelete email => storeAfter (deleteOTP email st)
  | CallClear => storeAfter (clearAllOTPs st)
  | CallCleanup now => (cleanupCallback now st).1
  end.

(** Calls one after the other, first to last. *)
Definition otpCalls (calls : list OTPCall) (st : Store) : Store :=
  fold_left (fun st c => otpCall c st) calls st.

(** What every stored entry satisfies: its key is a valid email in
    normalized form, its counter is between 0 and the budget, and
    [lastAttemptAt] is set exactly when an attempt was made. *)
Definition entryKept (k : string) (stored : OTPRecord) : Prop :=
  isValidEmail k = true /\
  normalize k = k /\
  0 <= attempts stored <= MAX_VERIFICATION_ATTEMPTS /\
  (attempts stored = 0 <-> lastAttemptAt stored = None).

Definition storeKept (st : Store) : Prop :=
  forall k stored, st !! k = Some stored -> entryKept k stored.

(** Every stored hash was made by [bcrypt.hash] with 10 salt rounds, as
    [storeOTP] makes them. *)
Definition madeWithTenRounds (st : Store) : Prop :=
  forall k stored,
    st !! k = Some stored ->
    exists data salt, otpHash stored = bcrypt_hash data 10 salt.

(** A call of [verifyOTP] for the identity [k] that got as far as the
    comparison with the stored hash: it returned [Valid] or [Invalid]. *)
Definition guessed (k : string) (c : VerifyCall) (r : Run VerifyResult)
  : bool :=
  bool_decide
    (normalize (call_email c) = k /\
     (completion r = Normal Valid \/ completion r = Normal Invalid)).

(** The number of such calls in a sequence of calls of [verifyOTP]. *)
Fixpoint guesses (k : string) (calls : list VerifyCall) (st : Store) : nat :=
  match calls with
  | [] => 0%nat
  | c :: calls' =>
      let r := verifyOTP bcrypt_compare (call_now1 c) (call_now2 c)
                 (call_email c) (call_otp c) st in
      ((if guessed k c r then 1 else 0) + guesses k calls' (storeAfter r))%nat
  end.

End Runs.

(** The attempts the record of the identity [k] has left: none when there
    is no record. *)
Definition budgetLeft (k : string) (st : Store) : Z :=
  match st !! k with
  | Some stored => Z.max 0 (MAX_VERIFICATION_ATTEMPTS - attempts stored)
  | None => 0
  end.

(** ** The callers: the email utility and the auth service

    [prisma.user] is the table of users; [email] is its unique column, so
    the table is a map from the email as given to the row,
    [findUnique({where: {email}})] is a lookup and
    [update({where: {email}, data: {verified: true}})] rewrites the row.
    Failures of the database itself and of the mail transport's
    construction are left out; how [transporter.sendMail] ends is an
    input.  The service functions take the email as a string: with any
    other value the lookup is refused by the database client, which is
    outside the repository. *)

Record User : Type := mkUser {
  user_id : string;
  user_email : string;
  user_phone : option string;
  user_passwordHash : string;
  user_role : string;
  user_verified : bool;
  user_active : bool;
  user_createdAt : Z
}.

(** The fields [verifyOTPCode] selects for the row it returns. *)
Record UserView : Type := mkUserView {
  view_id : string;
  view_email : string;
  view_phone : option string;
  view_role : string;
  view_verified : bool;
  view_active : bool;
  view_createdAt : Z
}.

Definition selectUser (u : User) : UserView :=
  mkUserView (user_id u) (user_email u) (user_phone u) (user_role u)
    (user_verified u) (user_active u) (user_createdAt u).

(** The state the service works on: the table, [otpStore], and the mails
    the transport has accepted, oldest first, as (recipient, code). *)
Record World : Type := mkWorld {
  users : gmap string User;
  otpStore : Store;
  sentMail : list (string * string)
}.

(** [sendOTPEmail(to, otp)]: [transport] is how [transporter.sendMail]
    ends, with the message id or with the message of its error. *)
Definition sendOTPEmail (transport : Completion string) (to otp : string)
  : Completion (bool * string) :=
  match transport with
  | Normal messageId => Normal (true, messageId)
  | Throw message => Throw ("Failed to send email: " ++ message)
  end.

(** The mail a call of [sendOTPEmail] adds to those sent. *)
Definition mailed (transport : Completion string) (to otp : string)
  : list (string * string) :=
  match sendOTPEmail transport to otp with
  | Normal _ => [(to, otp)]
  | Throw _ => []
  end.

(** A row with [verified] set. *)
Definition markVerified (user : User) : User :=
  mkUser (user_id user) (user_email user) (user_phone user)
    (user_passwordHash user) (user_role user) true (user_active user)
    (user_createdAt user).

Section AuthService.

Variable bcrypt_hash : string -> Z -> string -> string.
Variable bcrypt_compare : string -> string -> bool.

(** [sendOTP(email)].  [draw] is the integer [crypto.randomInt] returns
    in [generateOTP]; the clock readings and the salt are those of
    [storeOTP]. *)
Definition sendOTP (draw now1 now2 now3 : Z) (salt : string)
    (transport : Completion string) (email : string) (w : World)
  : Completion string * World :=
  match users w !! email with
  | None => (Throw "User not found", w)
  | Some user =>
      if user_verified user then (Throw "User already verified", w)
      else
        let otp := generateOTP draw in
        let stored :=
          storeOTP bcrypt_hash now1 now2 now3 salt email otp (otpStore w) in
        match completion stored with
        | Throw message =>
            (Throw message,
             mkWorld (users w) (storeAfter stored) (sentMail w))
        | Normal _ =>
            match sendOTPEmail transport email otp with
            | Normal _ =>
                (Normal otp,
                 mkWorld (users w) (storeAfter stored)
                   (sentMail w ++ [(email, otp)]))
            | Throw _ =>
                (* caught and logged *)
                (Normal otp,
                 mkWorld (users w) (storeAfter stored) (sentMail w))
            end
        end
  end.

(** [resendOTP(email)] *)
Definition resendOTP (draw now1 now2 now3 : Z) (salt : string)
    (transport : Completion string) (email : string) (w : World)
  : Completion string * World :=
  sendOTP draw now1 now2 now3 salt transport email w.

(** [result.reason || "Invalid or expired OTP"] *)
Definition reasonOrDefault (result : VerifyResult) : string :=
  match reason result with
  | Some message =>
      if String.eqb message EmptyString then "Invalid or expired OTP"
      else message
  | None => "Invalid or expired OTP"
  end.

(** [verifyOTPCode(email, otp)] *)
Definition verifyOTPCode (now1 now2 : Z) (email : string) (otp : JSValue)
    (w : World) : Completion UserView * World :=
  match users w !! email with
  | None => (Throw "User not found", w)
  | Some user =>
      if user_verified user then (Throw "User already verified", w)
      else
        let r := verifyOTP bcrypt_compare now1 now2 email otp (otpStore w) in
        let w1 := mkWorld (users w) (storeAfter r) (sentMail w) in
        match completion r with
        | Throw message => (Throw message, w1)
        | Normal result =>
            if negb (valid result) then (Throw (reasonOrDefault result), w1)
            else
              let updatedUser :=
                mkUser (user_id user) (user_email user) (user_phone user)
                  (user_passwordHash user) (user_role user) true
                  (user_active user) (user_createdAt user) in
              (Normal (selectUser updatedUser),
               mkWorld (<[email := updatedUser]> (users w)) (storeAfter r)
                 (sentMail w))
        end
  end.

End AuthService.

(** ** A run of the service to evaluate

    A student registered as a@b.com and not yet verified; the draw of the
    scenario above. *)

Module ServiceScenario.

Definition student : User :=
  mkUser "user-1" "a@b.com" None "$2b$10$passwordhash" "STUDENT" false true 0.

Definition world : World := mkWorld {["a@b.com" := student]} ∅ [].

End ServiceScenario.

(** * Properties *)

(** ** Digits *)

Module JSNumberFacts.
Import JSNumber.

(** Linear arithmetic with division and remainder by constants. *)
Ltac zdiv := Z.to_euclidean_division_equations; lia.

Lemma digits_more fuel n acc :
  10 <= n ->
  digits (S fuel) n acc =
  digits fuel (n / 10) (String (digitChar (n mod 10)) acc).
Proof.
  intros Hn. simpl. destruct (Z.ltb_spec n 10); [lia | reflexivity].
Qed.

Lemma digits_last fuel n acc :
  n < 10 ->
  digits (S fuel) n acc = String (digitChar (n mod 10)) acc.
Proof.
  intros Hn. simpl. destruct (Z.ltb_spec n 10); [reflexivity | lia].
Qed.

Lemma digit_cases d :
  0 <= d < 10 ->
  d = 0 \/ d = 1 \/ d = 2 \/ d = 3 \/ d = 4 \/
  d = 5 \/ d = 6 \/ d = 7 \/ d = 8 \/ d = 9.
Proof. lia. Qed.

Lemma isDigit_digitChar d :
  0 <= d < 10 -> JSString.isDigit (digitChar d) = true.
Proof.
  intros Hd. destruct (digit_cases d Hd) as [H | H];
    repeat (destruct H as [H | H]); subst d; reflexivity.
Qed.

Lemma digitValue_digitChar d :
  0 <= d < 10 -> digitValue (digitChar d) = d.
Proof.
  intros Hd. destruct (digit_cases d Hd) as [H | H];
    repeat (destruct H as [H | H]); subst d; reflexivity.
Qed.

Lemma digitsFuel_six n :
  100000 <= n -> exists fuel, digitsFuel n = (6 + fuel)%nat.
Proof.
  intros Hn. unfold digitsFuel.
  assert (16 <= Z.log2 n).
  { change 16 with (Z.log2 65536). apply Z.log2_le_mono. lia. }
  exists (Z.to_nat (Z.log2 n) - 5)%nat. lia.
Qed.

(** The six digits of a number of six digits. *)
Lemma toString_six n :
  100000 <= n <= 999999 ->
  toString n =
  String (digitChar (n / 100000 mod 10))
    (String (digitChar (n / 10000 mod 10))
       (String (digitChar (n / 1000 mod 10))
          (String (digitChar (n / 100 mod 10))
             (String (digitChar (n / 10 mod 10))
                (String (digitChar (n mod 10)) EmptyString))))).
Proof.
  intros Hn. unfold toString.
  destruct (Z.ltb_spec n 0); [lia |].
  destruct (digitsFuel_six n ltac:(lia)) as [fuel ->].
  cbn [Nat.add].
  do 5 (rewrite digits_more by zdiv).
  rewrite digits_last by zdiv.
  replace (n / 10 / 10) with (n / 100) by zdiv.
  replace (n / 100 / 10) with (n / 1000) by zdiv.
  replace (n / 1000 / 10) with (n / 10000) by zdiv.
  replace (n / 10000 / 10) with (n / 100000) by zdiv.
  reflexivity.
Qed.

End JSNumberFacts.

(** ** The patterns

    [Regex.test] decides the language of a pattern, and the two patterns of
    the module accept what their source text says. *)

Module RegexFacts.
Import Regex.

Lemma append_empty (s1 s2 : string) :
  s1 ++ s2 = EmptyString -> s1 = EmptyString /\ s2 = EmptyString.
Proof. destruct s1; [auto | discriminate]. Qed.

Lemma append_cons (s1 s2 : string) c s :
  s1 ++ s2 = String c s ->
  (s1 = EmptyString /\ s2 = String c s) \/
  (exists s1', s1 = String c s1' /\ s = s1' ++ s2).
Proof.
  destruct s1 as [| c1 s1]; [auto |].
  intros H. injection H as -> <-. right. eauto.
Qed.

Lemma nullable_matches r : nullable r = true <-> matches r EmptyString.
Proof.
  split.
  - induction r; cbn; intros H; try discriminate.
    + constructor.
    + apply andb_true_iff in H as [H1 H2].
      change EmptyString with (EmptyString ++ EmptyString).
      constructor; auto.
    + apply orb_true_iff in H as [H | H]; [apply MAltL | apply MAltR]; auto.
    + constructor.
  - intros H. remember EmptyString as s eqn:Hs.
    induction H as [| | r1 r2 s1 s2 H1 IH1 H2 IH2 | r1 r2 s H IH
                   | r1 r2 s H IH | |];
      cbn; try discriminate; try reflexivity.
    + apply append_empty in Hs as [-> ->]. rewrite IH1, IH2; auto.
    + rewrite IH; auto.
    + rewrite IH; auto using orb_true_r.
Qed.

Lemma deriv_sound c r :
  forall s, matches (deriv c r) s -> matches r (String c s).
Proof.
  induction r; cbn; intros s H.
  - inversion H.
  - inversion H.
  - destruct (p c) eqn:Hp; inversion H; subst. constructor; assumption.
  - destruct (nullable r1) eqn:Hn.
    + inversion H as [| | | ? ? ? H1 | ? ? ? H2 | |]; subst.
      * inversion H1; subst.
        change (String c (s1 ++ s2)) with (String c s1 ++ s2).
        constructor; auto.
      * change (String c s) with (EmptyString ++ String c s).
        constructor; [apply nullable_matches; assumption | auto].
    + inversion H; subst.
      change (String c (s1 ++ s2)) with (String c s1 ++ s2).
      constructor; auto.
  - inversion H; subst; [apply MAltL | apply MAltR]; auto.
  - inversion H; subst.
    change (String c (s1 ++ s2)) with (String c s1 ++ s2).
    constructor; auto.
Qed.

Lemma deriv_complete c r w :
  matches r w -> forall s, w = String c s -> matches (deriv c r) s.
Proof.
  induction 1 as [| p c' Hp | r1 r2 s1 s2 H1 IH1 H2 IH2 | r1 r2 w H IH
                 | r1 r2 w H IH | r | r s1 s2 H1 IH1 H2 IH2];
    intros s Hw; cbn.
  - discriminate.
  - injection Hw as -> <-. rewrite Hp. constructor.
  - apply append_cons in Hw as [[-> ->] | (s1' & -> & ->)].
    + apply nullable_matches in H1. rewrite H1. apply MAltR. auto.
    + destruct (nullable r1); [apply MAltL |]; constructor; auto.
  - apply MAltL. auto.
  - apply MAltR. auto.
  - discriminate.
  - apply append_cons in Hw as [[-> ->] | (s1' & -> & ->)].
    + apply IH2. reflexivity.
    + constructor; auto.
Qed.

(** [test] decides membership in the language. *)
Theorem test_matches s : forall r, test r s = true <-> matches r s.
Proof.
  induction s as [| c s IH]; intros r; cbn.
  - apply nullable_matches.
  - rewrite IH. split; [apply deriv_sound |].
    intros H. eapply deriv_complete; eauto.
Qed.

Lemma matches_Star_Class p s :
  matches (Star (Class p)) s <-> JSString.forallb p s = true.
Proof.
  split.
  - intros H. remember (Star (Class p)) as r eqn:Hr.
    induction H as [| | | | | r' | r' s1 s2 H1 _ H2 IH2]; try discriminate.
    + reflexivity.
    + injection Hr as ->. inversion H1 as [| p' c Hp | | | | |]; subst.
      change (String c EmptyString ++ s2) with (String c s2).
      cbn [JSString.forallb]. rewrite Hp. apply IH2. reflexivity.
  - induction s as [| c s IH]; cbn; intros H.
    + constructor.
    + apply andb_true_iff in H as [Hc Hs].
      change (String c s) with (String c EmptyString ++ s).
      constructor; [constructor; assumption | auto].
Qed.

(** [[p]+] matches the non-empty strings of characters of [p]. *)
Lemma matches_Plus_Class p s :
  matches (Plus (Class p)) s <->
  s <> EmptyString /\ JSString.forallb p s = true.
Proof.
  unfold Plus. split.
  - intros H. inversion H as [| | r1 r2 s1 s2 H1 H2 | | | |]; subst.
    inversion H1 as [| p' c Hp | | | | |]; subst.
    apply matches_Star_Class in H2.
    change (String c EmptyString ++ s2) with (String c s2).
    cbn [JSString.forallb]. rewrite Hp, H2.
    split; [discriminate | reflexivity].
  - intros [Hne Hall]. destruct s as [| c s]; [contradiction |].
    cbn in Hall. apply andb_true_iff in Hall as [Hc Hs].
    change (String c s) with (String c EmptyString ++ s).
    constructor; [constructor; assumption |].
    apply matches_Star_Class; assumption.
Qed.

Lemma matches_Chr c s : matches (Chr c) s <-> s = String c EmptyString.
Proof.
  unfold Chr. split.
  - intros H. inversion H as [| p c' Hp | | | | |]; subst.
    apply Ascii.eqb_eq in Hp. now subst.
  - intros ->. constructor. apply Ascii.eqb_refl.
Qed.

End RegexFacts.

Lemma test_Void (s : string) : Regex.test Regex.Void s = false.
Proof. induction s as [| c s IH]; [reflexivity | exact IH]. Qed.

Lemma test_Cat_Void (r : Regex.regex) (s : string) :
  Regex.test (Regex.Cat Regex.Void r) s = false.
Proof. induction s as [| c s IH]; [reflexivity | exact IH]. Qed.

Lemma test_Alt (r1 r2 : Regex.regex) (s : string) :
  Regex.test (Regex.Alt r1 r2) s = Regex.test r1 s || Regex.test r2 s.
Proof.
  revert r1 r2. induction s as [| c s IH]; intros r1 r2; [reflexivity |].
  cbn [Regex.test Regex.deriv]. apply IH.
Qed.

Lemma test_Cat_Eps (r : Regex.regex) (s : string) :
  Regex.test (Regex.Cat Regex.Eps r) s = Regex.test r s.
Proof.
  destruct s as [| c s]; [reflexivity |].
  cbn [Regex.test Regex.deriv Regex.nullable].
  rewrite test_Alt, test_Cat_Void. reflexivity.
Qed.

(** One step of [\d{n+1}] on a character. *)
Lemma test_digit_step (n : nat) (c : ascii) (s : string) :
  Regex.test (Regex.Times (S n) (Regex.Class JSString.isDigit)) (String c s)
  = JSString.isDigit c
    && Regex.test (Regex.Times n (Regex.Class JSString.isDigit)) s.
Proof.
  cbn [Regex.Times Regex.test Regex.deriv Regex.nullable].
  destruct (JSString.isDigit c); cbn [andb].
  - apply test_Cat_Eps.
  - apply test_Cat_Void.
Qed.

Lemma test_digits (n : nat) :
  forall s,
    Regex.test (Regex.Times n (Regex.Class JSString.isDigit)) s = true <->
    String.length s = n /\ JSString.forallb JSString.isDigit s = true.
Proof.
  induction n as [| n IH]; intros s.
  - destruct s as [| c s]; cbn [Regex.Times].
    + cbn. tauto.
    + cbn [Regex.test Regex.deriv]. rewrite test_Void. cbn.
      split; [discriminate | intros [H _]; discriminate H].
  - destruct s as [| c s].
    + cbn. split; [discriminate | intros [H _]; discriminate H].
    + rewrite test_digit_step, andb_true_iff, IH.
      cbn [String.length JSString.forallb]. rewrite andb_true_iff.
      split; intros (? & ? & ?); repeat split; auto; congruence.
Qed.

Lemma isValidOTPFormat_spec (s : string) :
  isValidOTPFormat s = true <->
  String.length s = 6%nat /\ JSString.forallb JSString.isDigit s = true.
Proof.
  unfold isValidOTPFormat, otpRegex. cbn [typeofString negb orb truthy].
  rewrite orb_false_r.
  destruct s as [| c s].
  - cbn. split; [discriminate | intros [H _]; discriminate H].
  - cbn [String.eqb negb]. apply test_digits.
Qed.

(** [isValidOTPFormat] accepts the strings of six decimal digits, above.
    [isValidEmail] accepts the strings that, trimmed and lower-cased, read
    [local@domain.tld] with three non-empty parts free of white space and
    of [@]. *)
Lemma isValidEmail_spec (s : string) :
  isValidEmail s = true <->
  exists a b c,
    normalize s = a ++ "@" ++ b ++ "." ++ c /\
    emailPart a /\ emailPart b /\ emailPart c.
Proof.
  unfold isValidEmail. cbn [typeofString negb truthy]. rewrite orb_false_r.
  destruct (String.eqb_spec s EmptyString) as [-> | Hne]; cbn [negb].
  - split; [discriminate |]. intros (a & b & c & H & [Ha _] & _).
    destruct a; [contradiction | discriminate].
  - fold (normalize s). rewrite RegexFacts.test_matches. unfold emailRegex.
    split.
    + intros H.
      inversion H as [| | ? ? a rest1 Ma Mrest1 | | | |]; subst.
      inversion Mrest1 as [| | ? ? at_ rest2 Mat Mrest2 | | | |]; subst.
      inversion Mrest2 as [| | ? ? b rest3 Mb Mrest3 | | | |]; subst.
      inversion Mrest3 as [| | ? ? dot c Mdot Mc | | | |]; subst.
      apply RegexFacts.matches_Chr in Mat, Mdot. subst at_ dot.
      apply RegexFacts.matches_Plus_Class in Ma, Mb, Mc.
      exists a, b, c. repeat split; solve [tauto | congruence].
    + intros (a & b & c & -> & Ha & Hb & Hc).
      repeat constructor;
        try apply RegexFacts.matches_Plus_Class; try assumption;
        apply Ascii.eqb_refl.
Qed.

Example isValidEmail_accepts :
  isValidEmail "a@b.com" = true /\
  isValidEmail "  Tutor.One@Mail.Example.ORG " = true /\
  normalize "  Tutor.One@Mail.Example.ORG " = "tutor.one@mail.example.org".
Proof. repeat split; vm_compute; reflexivity. Qed.

Example isValidEmail_rejects :
  isValidEmail "" = false /\ isValidEmail "a@b" = false /\
  isValidEmail "a@b." = false /\ isValidEmail "a@.b" = false /\
  isValidEmail "@b.c" = false /\ isValidEmail "a b@c.d" = false /\
  isValidEmail "a@b@c.d" = false /\ isValidEmail (JSNum 7) = false /\
  isValidEmail JSUndefined = false.
Proof. repeat split; vm_compute; reflexivity. Qed.

Example isValidOTPFormat_examples :
  isValidOTPFormat "482193" = true /\ isValidOTPFormat "000042" = true /\
  isValidOTPFormat "48219" = false /\ isValidOTPFormat "4821930" = false /\
  isValidOTPFormat " 482193" = false /\ isValidOTPFormat "48a193" = false /\
  isValidOTPFormat (JSNum 482193) = false.
Proof. repeat split; vm_compute; reflexivity. Qed.

Example toString_examples :
  JSNumber.toString 0 = "0" /\ JSNumber.toString 1000 = "1000" /\
  JSNumber.toString (-15) = "-15" /\
  JSString.padStart "42" 6 "0" = "000042" /\
  JSString.padStart "42" 5 "ab" = "aba42" /\
  JSString.padStart "1234567" 6 "0" = "1234567".
Proof. repeat split; vm_compute; reflexivity. Qed.

(** ** The validators let strings through only *)

Lemma isValidEmail_string (v : JSValue) :
  isValidEmail v = true -> exists s : string, v = JSStr s.
Proof.
  unfold isValidEmail.
  destruct v; cbn [typeofString negb]; rewrite ?orb_true_r;
    try discriminate.
  intros _. eauto.
Qed.

Lemma isValidOTPFormat_string (v : JSValue) :
  isValidOTPFormat v = true -> exists s : string, v = JSStr s.
Proof.
  unfold isValidOTPFormat.
  destruct v; cbn [typeofString negb]; rewrite ?orb_true_r;
    try discriminate.
  intros _. eauto.
Qed.

(** [/^\d{6}$/] accepts six digits. *)
Lemma otpRegex_six_digits (c1 c2 c3 c4 c5 c6 : ascii) :
  JSString.isDigit c1 = true -> JSString.isDigit c2 = true ->
  JSString.isDigit c3 = true -> JSString.isDigit c4 = true ->
  JSString.isDigit c5 = true -> JSString.isDigit c6 = true ->
  isValidOTPFormat
    (JSStr (String c1 (String c2 (String c3 (String c4 (String c5
       (String c6 EmptyString))))))) = true.
Proof.
  intros H1 H2 H3 H4 H5 H6. unfold isValidOTPFormat, otpRegex.
  cbn. rewrite H1. cbn. rewrite H2. cbn. rewrite H3. cbn. rewrite H4.
  cbn. rewrite H5. cbn. rewrite H6. reflexivity.
Qed.

(** ** The code generator *)

(** C8: [generateOTP], on whatever integer [crypto.randomInt(100000,
    1000000)] returns, yields a string of exactly [OTP_LENGTH] = 6
    characters, all of them decimal digits, that denotes the integer drawn,
    a number between [10^(6-1)] = 100000 and [10^6 - 1] = 999999; the
    string passes [isValidOTPFormat]. *)
Theorem C8_generateOTP_six_digits (draw : Z) :
  randomIntRange generateOTP_min (generateOTP_max + 1) draw ->
  let code := generateOTP draw in
  String.length code = OTP_LENGTH /\
  OTP_LENGTH = 6%nat /\
  JSString.forallb JSString.isDigit code = true /\
  JSNumber.value code = draw /\
  10 ^ (Z.of_nat OTP_LENGTH - 1) <= JSNumber.value code
    <= 10 ^ Z.of_nat OTP_LENGTH - 1 /\
  100000 <= JSNumber.value code <= 999999 /\
  isValidOTPFormat code = true.
Proof.
  unfold randomIntRange, generateOTP_min, generateOTP_max. intros Hdraw.
  assert (Hstr := JSNumberFacts.toString_six draw ltac:(lia)).
  cbv zeta. unfold generateOTP. rewrite Hstr. clear Hstr.
  pose proof (Z.mod_pos_bound (draw / 100000) 10 ltac:(lia)) as B5.
  pose proof (Z.mod_pos_bound (draw / 10000) 10 ltac:(lia)) as B4.
  pose proof (Z.mod_pos_bound (draw / 1000) 10 ltac:(lia)) as B3.
  pose proof (Z.mod_pos_bound (draw / 100) 10 ltac:(lia)) as B2.
  pose proof (Z.mod_pos_bound (draw / 10) 10 ltac:(lia)) as B1.
  pose proof (Z.mod_pos_bound draw 10 ltac:(lia)) as B0.
  assert (Hvalue :
    JSNumber.value
      (String (JSNumber.digitChar (draw / 100000 mod 10))
        (String (JSNumber.digitChar (draw / 10000 mod 10))
          (String (JSNumber.digitChar (draw / 1000 mod 10))
            (String (JSNumber.digitChar (draw / 100 mod 10))
              (String (JSNumber.digitChar (draw / 10 mod 10))
                (String (JSNumber.digitChar (draw mod 10)) EmptyString))))))
    = draw).
  { unfold JSNumber.value. cbn [JSNumber.valueFrom].
    rewrite !JSNumberFacts.digitValue_digitChar by assumption.
    JSNumberFacts.zdiv. }
  unfold JSString.padStart. cbn [String.length OTP_LENGTH Nat.leb].
  rewrite Hvalue.
  split; [reflexivity |]. split; [reflexivity |].
  split.
  { cbn [JSString.forallb].
    rewrite !JSNumberFacts.isDigit_digitChar by assumption. reflexivity. }
  split; [reflexivity |].
  split.
  { change (10 ^ (Z.of_nat OTP_LENGTH - 1)) with 100000.
    change (10 ^ Z.of_nat OTP_LENGTH - 1) with 999999. lia. }
  split; [lia |].
  apply otpRegex_six_digits; apply JSNumberFacts.isDigit_digitChar;
    assumption.
Qed.

(** C8 at the draw 482193. *)
Lemma C8_generateOTP_six_digits_witness :
  randomIntRange generateOTP_min (generateOTP_max + 1) 482193 /\
  generateOTP 482193 = "482193" /\
  JSNumber.value (generateOTP 482193) = 482193.
Proof.
  assert (H : randomIntRange generateOTP_min (generateOTP_max + 1) 482193).
  { unfold randomIntRange, generateOTP_min, generateOTP_max. lia. }
  split; [exact H |]. split; [reflexivity |].
  exact (proj1 (proj2 (proj2 (proj2 (C8_generateOTP_six_digits 482193 H))))).
Defined.

(** ** [storeOTP] and [verifyOTP], branch by branch *)

Section OTPFacts.

Variable bcrypt_hash : string -> Z -> string -> string.
Variable bcrypt_compare : string -> string -> bool.

Local Abbreviation store := (storeOTP bcrypt_hash).
Local Abbreviation verify := (verifyOTP bcrypt_compare).

Ltac enter_verify Hwf :=
  destruct Hwf as [Hwf_email Hwf_otp];
  unfold verifyOTP; rewrite Hwf_email, Hwf_otp; cbn [negb].

Lemma storeOTP_within_ttl now1 now2 now3 salt (email otp : string) st :
  wellFormed email otp ->
  now3 <= now1 + OTP_EXPIRATION_MS ->
  store now1 now2 now3 salt email otp st =
  mkRun (Normal tt)
    (<[normalize email := freshRecord bcrypt_hash now1 now2 salt otp]> st)
    [HashCall otp 10].
Proof.
  intros [He Ho] Hnow. unfold storeOTP.
  rewrite He, Ho. cbn [negb]. rewrite lookup_insert_eq. cbn [expiresAt].
  destruct (Z.gtb_spec now3 (now1 + OTP_EXPIRATION_MS)); [lia |].
  reflexivity.
Qed.

Lemma verifyOTP_absent now1 now2 (email otp : string) st :
  wellFormed email otp ->
  st !! normalize email = None ->
  verify now1 now2 email otp st =
  mkRun (Normal NotFound) st [CompareCall otp DUMMY_HASH].
Proof. intros Hwf Hst. enter_verify Hwf. rewrite Hst. reflexivity. Qed.

Lemma verifyOTP_expired now1 now2 (email otp : string) st stored :
  wellFormed email otp ->
  st !! normalize email = Some stored ->
  expiresAt stored < now1 ->
  verify now1 now2 email otp st =
  mkRun (Normal Expired) (delete (normalize email) st)
    [CompareCall otp DUMMY_HASH].
Proof.
  intros Hwf Hst Hnow. enter_verify Hwf. rewrite Hst.
  destruct (Z.gtb_spec now1 (expiresAt stored)); [reflexivity | lia].
Qed.

Lemma verifyOTP_exhausted now1 now2 (email otp : string) st stored :
  wellFormed email otp ->
  st !! normalize email = Some stored ->
  now1 <= expiresAt stored ->
  MAX_VERIFICATION_ATTEMPTS <= attempts stored ->
  verify now1 now2 email otp st =
  mkRun (Normal AttemptsExceeded) (delete (normalize email) st) [].
Proof.
  intros Hwf Hst Hnow Hmax. enter_verify Hwf. rewrite Hst.
  destruct (Z.gtb_spec now1 (expiresAt stored)); [lia |].
  destruct (Z.geb_spec (attempts stored) MAX_VERIFICATION_ATTEMPTS);
    [reflexivity | lia].
Qed.

Lemma verifyOTP_match now1 now2 (email otp : string) st stored :
  wellFormed email otp ->
  st !! normalize email = Some stored ->
  now1 <= expiresAt stored ->
  attempts stored < MAX_VERIFICATION_ATTEMPTS ->
  bcrypt_compare otp (otpHash stored) = true ->
  verify now1 now2 email otp st =
  mkRun (Normal Valid) (delete (normalize email) st)
    [CompareCall otp (otpHash stored)].
Proof.
  intros Hwf Hst Hnow Hmax Hcmp. enter_verify Hwf. rewrite Hst.
  destruct (Z.gtb_spec now1 (expiresAt stored)); [lia |].
  destruct (Z.geb_spec (attempts stored) MAX_VERIFICATION_ATTEMPTS);
    [lia |].
  cbn [otpHash]. rewrite Hcmp. rewrite delete_insert_eq. reflexivity.
Qed.

Lemma verifyOTP_mismatch now1 now2 (email otp : string) st stored :
  wellFormed email otp ->
  st !! normalize email = Some stored ->
  now1 <= expiresAt stored ->
  attempts stored < MAX_VERIFICATION_ATTEMPTS ->
  bcrypt_compare otp (otpHash stored) = false ->
  verify now1 now2 email otp st =
  mkRun (Normal Invalid)
    (<[normalize email := attempted now2 stored]> st)
    [CompareCall otp (otpHash stored)].
Proof.
  intros Hwf Hst Hnow Hmax Hcmp. enter_verify Hwf. rewrite Hst.
  destruct (Z.gtb_spec now1 (expiresAt stored)); [lia |].
  destruct (Z.geb_spec (attempts stored) MAX_VERIFICATION_ATTEMPTS);
    [lia |].
  cbn [otpHash]. rewrite Hcmp. rewrite insert_insert_eq. reflexivity.
Qed.

(** ** Issuing a code *)

(** C7 (as the code has it): [storeOTP] on a valid email and a well-formed
    code, when the clock read by its last test is not past the expiry it
    has just set (no more than the five minutes pass during the call),
    returns normally and leaves the store mapping the normalized email to
    one record, with [attempts = 0] and [expiresAt] five minutes after the
    first clock reading of the call; a prior record for that email is
    replaced, the other entries are untouched, and the cleanup test after
    the insertion deletes nothing. *)
Theorem C7_storeOTP_stores_fresh_record
    now1 now2 now3 salt (email otp : string) (st : Store) :
  isValidEmail email = true ->
  isValidOTPFormat otp = true ->
  now3 <= now1 + OTP_EXPIRATION_MS ->
  let r := store now1 now2 now3 salt email otp st in
  let fresh :=
    mkOTPRecord (bcrypt_hash otp 10 salt) (now1 + 5 * 60 * 1000) 0 now2
      None in
  completion r = Normal tt /\
  storeAfter r = <[normalize email := fresh]> st /\
  storeAfter r !! normalize email = Some fresh /\
  attempts fresh = 0 /\
  expiresAt fresh = now1 + OTP_EXPIRATION_MS /\
  (forall k, k <> normalize email -> storeAfter r !! k = st !! k).
Proof.
  intros He Ho Hnow r fresh. subst r.
  rewrite storeOTP_within_ttl by (try split; assumption).
  cbn [completion storeAfter].
  change (freshRecord bcrypt_hash now1 now2 salt otp) with fresh.
  repeat split.
  - apply lookup_insert_eq.
  - intros k Hk. apply lookup_insert_ne. congruence.
Qed.

(** The other case: when the clock read by the cleanup test is past the
    expiry just set, that test deletes the record the call has stored. *)
Remark storeOTP_after_ttl now1 now2 now3 salt (email otp : string) st :
  wellFormed email otp ->
  now1 + OTP_EXPIRATION_MS < now3 ->
  storeAfter (store now1 now2 now3 salt email otp st) !! normalize email
  = None.
Proof.
  intros [He Ho] Hnow. unfold storeOTP.
  rewrite He, Ho. cbn [negb]. rewrite lookup_insert_eq. cbn [expiresAt].
  destruct (Z.gtb_spec now3 (now1 + OTP_EXPIRATION_MS)); [| lia].
  cbn [storeAfter]. apply lookup_delete_eq.
Qed.

(** ** Verifying the right code *)

(** C3: after [storeOTP] has stored a code for a valid email, a
    [verifyOTP] with that code, made before the code expires, returns
    [Valid] and removes the record; a second [verifyOTP] with the same
    email and code, whenever it is made, returns [NotFound].  [bcrypt] is
    assumed to accept a code against its own hash. *)
Theorem C3_right_code_is_single_use
    s1 s2 s3 salt (email otp : string) (st : Store) v1 v2 w1 w2 :
  (forall data slt,
      isValidOTPFormat (JSStr data) = true ->
      bcrypt_compare data (bcrypt_hash data 10 slt) = true) ->
  isValidEmail email = true ->
  isValidOTPFormat otp = true ->
  s3 <= s1 + OTP_EXPIRATION_MS ->
  v1 <= s1 + OTP_EXPIRATION_MS ->
  let issued := store s1 s2 s3 salt email otp st in
  let first := verify v1 v2 email otp (storeAfter issued) in
  let second := verify w1 w2 email otp (storeAfter first) in
  completion issued = Normal tt /\
  completion first = Normal Valid /\
  storeAfter first !! normalize email = None /\
  completion second = Normal NotFound.
Proof.
  intros Hbcrypt He Ho Hs Hv issued first second.
  assert (Hwf : wellFormed email otp) by (split; assumption).
  set (k := normalize email).
  set (rec := freshRecord bcrypt_hash s1 s2 salt otp).
  assert (Hissued :
    issued = mkRun (Normal tt) (<[k := rec]> st) [HashCall otp 10])
    by (apply storeOTP_within_ttl; assumption).
  assert (Hfirst :
    first = mkRun (Normal Valid) (delete k (<[k := rec]> st))
              [CompareCall otp (otpHash rec)]).
  { subst first. rewrite Hissued. cbn [storeAfter].
    apply verifyOTP_match; try assumption.
    - apply lookup_insert_eq.
    - cbn. unfold MAX_VERIFICATION_ATTEMPTS. lia.
    - cbn. apply Hbcrypt. assumption. }
  assert (Hsecond :
    second = mkRun (Normal NotFound) (delete k (<[k := rec]> st))
               [CompareCall otp DUMMY_HASH]).
  { subst second. rewrite Hfirst. cbn [storeAfter].
    apply verifyOTP_absent; [assumption | apply lookup_delete_eq]. }
  rewrite Hissued, Hfirst, Hsecond. cbn [completion storeAfter].
  repeat split. apply lookup_delete_eq.
Qed.

(** ** Expiry *)

(** C4 (as the code has it): for a stored record and well-formed
    arguments, a [verifyOTP] whose clock reading is strictly after
    [expiresAt] deletes the record and returns [Expired], with one
    comparison against the dummy hash; at [expiresAt] itself and before it
    the call does not return [Expired]: the record is still live and the
    call goes on to the attempt test. *)
Theorem C4_expired_strictly_after_expiresAt
    now1 now2 (email otp : string) (st : Store) (stored : OTPRecord) :
  isValidEmail email = true ->
  isValidOTPFormat otp = true ->
  st !! normalize email = Some stored ->
  let r := verify now1 now2 email otp st in
  (expiresAt stored < now1 ->
     completion r = Normal Expired /\
     storeAfter r = delete (normalize email) st /\
     storeAfter r !! normalize email = None /\
     bcryptCalls r = [CompareCall otp DUMMY_HASH]) /\
  (now1 <= expiresAt stored ->
     completion r = Normal AttemptsExceeded \/
     completion r = Normal Valid \/
     completion r = Normal Invalid).
Proof.
  intros He Ho Hst r.
  assert (Hwf : wellFormed email otp) by (split; assumption).
  split; intros Hnow; subst r.
  - rewrite (verifyOTP_expired now1 now2 email otp st stored) by assumption.
    cbn [completion storeAfter bcryptCalls].
    repeat split. apply lookup_delete_eq.
  - destruct (Z.le_gt_cases MAX_VERIFICATION_ATTEMPTS (attempts stored))
      as [Hmax | Hmax].
    + left.
      rewrite (verifyOTP_exhausted now1 now2 email otp st stored)
        by assumption.
      reflexivity.
    + right.
      destruct (bcrypt_compare otp (otpHash stored)) eqn:Hcmp.
      * left.
        rewrite (verifyOTP_match now1 now2 email otp st stored)
          by assumption.
        reflexivity.
      * right.
        rewrite (verifyOTP_mismatch now1 now2 email otp st stored)
          by assumption.
        reflexivity.
Qed.

(** ** The comparisons a call makes *)

(** The comparisons of each outcome: on well-formed arguments, a
    [verifyOTP] that returns [NotFound] or [Expired] has made exactly one
    comparison, of the supplied code against the dummy hash; one that
    returns [Invalid] has made exactly one comparison, of the supplied
    code against the stored hash; one that returns [AttemptsExceeded] has
    made no comparison at all.  These are the outcomes of a call on
    well-formed arguments that does not return [Valid]. *)
Lemma verifyOTP_comparisons
    now1 now2 (email otp : string) (st : Store) :
  isValidEmail email = true ->
  isValidOTPFormat otp = true ->
  let r := verify now1 now2 email otp st in
  (completion r = Normal NotFound ->
     bcryptCalls r = [CompareCall otp DUMMY_HASH]) /\
  (completion r = Normal Expired ->
     bcryptCalls r = [CompareCall otp DUMMY_HASH]) /\
  (completion r = Normal Invalid ->
     exists stored,
       st !! normalize email = Some stored /\
       bcryptCalls r = [CompareCall otp (otpHash stored)]) /\
  (completion r = Normal AttemptsExceeded -> bcryptCalls r = []) /\
  (completion r <> Normal Valid ->
     completion r = Normal NotFound \/ completion r = Normal Expired \/
     completion r = Normal Invalid \/
     completion r = Normal AttemptsExceeded).
Proof.
  intros He Ho r.
  assert (Hwf : wellFormed email otp) by (split; assumption).
  destruct (st !! normalize email) as [stored |] eqn:Hst.
  - destruct (Z.lt_ge_cases (expiresAt stored) now1) as [Hnow | Hnow].
    + subst r.
      rewrite (verifyOTP_expired now1 now2 email otp st stored)
        by assumption.
      cbn [completion bcryptCalls].
      repeat split; try discriminate; auto.
    + destruct (Z.le_gt_cases MAX_VERIFICATION_ATTEMPTS (attempts stored))
        as [Hmax | Hmax].
      * subst r.
        rewrite (verifyOTP_exhausted now1 now2 email otp st stored)
          by assumption.
        cbn [completion bcryptCalls].
        repeat split; try discriminate; auto.
      * destruct (bcrypt_compare otp (otpHash stored)) eqn:Hcmp; subst r.
        -- rewrite (verifyOTP_match now1 now2 email otp st stored)
             by assumption.
           cbn [completion bcryptCalls].
           repeat split; try discriminate; auto. congruence.
        -- rewrite (verifyOTP_mismatch now1 now2 email otp st stored)
             by assumption.
           cbn [completion bcryptCalls].
           repeat split; try discriminate; eauto.
  - subst r. rewrite verifyOTP_absent by assumption.
    cbn [completion bcryptCalls].
    repeat split; try discriminate; auto.
Qed.

(** ** Every call returns a result object *)

(** Whatever values it is called with, strings or not, [verifyOTP] does
    not throw: the validators turn away every value on which a string
    method would fail. *)
Lemma verifyOTP_never_throws now1 now2 (email otp : JSValue) (st : Store) :
  exists result, completion (verify now1 now2 email otp st) = Normal result.
Proof.
  unfold verifyOTP.
  destruct (isValidEmail email) eqn:He; cbn [negb]; [| eauto].
  destruct (isValidOTPFormat otp) eqn:Ho; cbn [negb]; [| eauto].
  destruct (isValidEmail_string email He) as [e ->].
  destruct (isValidOTPFormat_string otp Ho) as [o ->].
  destruct (st !! normalize e) as [stored |]; [| eauto].
  destruct (now1 >? expiresAt stored); [eauto |].
  destruct (attempts stored >=? MAX_VERIFICATION_ATTEMPTS); [eauto |].
  cbv zeta. cbn [otpHash].
  destruct (bcrypt_compare o (otpHash stored)); eexists; reflexivity.
Qed.

(** The three facts about a result object with [valid: false], up to the
    proof that the conditions for [valid: true] fail. *)
Ltac failure_object :=
  split; [reflexivity |];
  split; [cbn [In]; tauto |];
  split; [split; [discriminate |] | intros _; eexists; reflexivity].

Ltac no_hashMatch Hst :=
  let H := fresh "H" in
  let stored' := fresh "stored'" in
  let Hst' := fresh "Hst'" in
  intros H; exfalso;
  destruct H as (? & ? & stored' & Hst' & ? & ? & ?);
  try (rewrite Hst in Hst'; inversion Hst'; subst stored');
  first [congruence | lia].

(** C10: on every pair of strings, malformed ones included, at every time
    and on every store, [verifyOTP] returns: it does not throw, and what it
    returns is one of the seven result objects of the source (two for
    malformed arguments, then not found, expired, attempts exceeded, wrong
    code, valid).  [valid] is true exactly when the arguments are
    well-formed, a record is stored for the normalized email, it has not
    expired, it has attempts left and [bcrypt.compare] accepts the code
    against its hash; every other result carries a reason. *)
Theorem C10_verifyOTP_returns_result_object
    now1 now2 (email otp : string) (st : Store) :
  exists result : VerifyResult,
    completion (verify now1 now2 email otp st) = Normal result /\
    In result
      [InvalidEmailFormat; InvalidOTPFormat; NotFound; Expired;
       AttemptsExceeded; Invalid; Valid] /\
    (valid result = true <-> hashMatch bcrypt_compare now1 email otp st) /\
    (valid result = false -> exists message, reason result = Some message).
Proof.
  destruct (isValidEmail email) eqn:He.
  2: { exists InvalidEmailFormat. unfold verifyOTP. rewrite He.
       cbn [negb completion]. failure_object.
       intros (? & _); congruence. }
  destruct (isValidOTPFormat otp) eqn:Ho.
  2: { exists InvalidOTPFormat. unfold verifyOTP. rewrite He, Ho.
       cbn [negb completion]. failure_object.
       intros (_ & ? & _); congruence. }
  assert (Hwf : wellFormed email otp) by (split; assumption).
  destruct (st !! normalize email) as [stored |] eqn:Hst.
  2: { exists NotFound. rewrite verifyOTP_absent by assumption.
       cbn [completion]. failure_object. no_hashMatch Hst. }
  destruct (Z.lt_ge_cases (expiresAt stored) now1) as [Hnow | Hnow].
  { exists Expired.
    rewrite (verifyOTP_expired now1 now2 email otp st stored) by assumption.
    cbn [completion]. failure_object. no_hashMatch Hst. }
  destruct (Z.le_gt_cases MAX_VERIFICATION_ATTEMPTS (attempts stored))
    as [Hmax | Hmax].
  { exists AttemptsExceeded.
    rewrite (verifyOTP_exhausted now1 now2 email otp st stored)
      by assumption.
    cbn [completion]. failure_object. no_hashMatch Hst. }
  destruct (bcrypt_compare otp (otpHash stored)) eqn:Hcmp.
  - exists Valid.
    rewrite (verifyOTP_match now1 now2 email otp st stored) by assumption.
    cbn [completion].
    split; [reflexivity |]. split; [cbn [In]; tauto |]. split.
    + split; [intros _ | reflexivity].
      unfold hashMatch. eauto 10.
    + discriminate.
  - exists Invalid.
    rewrite (verifyOTP_mismatch now1 now2 email otp st stored)
      by assumption.
    cbn [completion]. failure_object. no_hashMatch Hst.
Qed.

(** ** The attempt budget *)

(** What a call does to the store: nothing, or it deletes the entry of the
    identity, or it replaces a record that had attempts left by the same
    record with one attempt more. *)
Lemma verifyOTP_store now1 now2 (email otp : string) (st : Store) :
  let r := verify now1 now2 email otp st in
  storeAfter r = st \/
  storeAfter r = delete (normalize email) st \/
  exists stored,
    st !! normalize email = Some stored /\
    attempts stored < MAX_VERIFICATION_ATTEMPTS /\
    storeAfter r = <[normalize email := attempted now2 stored]> st.
Proof.
  intros r. subst r.
  destruct (isValidEmail email) eqn:He.
  2: { left. unfold verifyOTP. rewrite He. reflexivity. }
  destruct (isValidOTPFormat otp) eqn:Ho.
  2: { left. unfold verifyOTP. rewrite He, Ho. reflexivity. }
  assert (Hwf : wellFormed email otp) by (split; assumption).
  destruct (st !! normalize email) as [stored |] eqn:Hst.
  2: { left. rewrite verifyOTP_absent by assumption. reflexivity. }
  destruct (Z.lt_ge_cases (expiresAt stored) now1) as [Hnow | Hnow].
  { right; left.
    rewrite (verifyOTP_expired now1 now2 email otp st stored) by assumption.
    reflexivity. }
  destruct (Z.le_gt_cases MAX_VERIFICATION_ATTEMPTS (attempts stored))
    as [Hmax | Hmax].
  { right; left.
    rewrite (verifyOTP_exhausted now1 now2 email otp st stored)
      by assumption.
    reflexivity. }
  destruct (bcrypt_compare otp (otpHash stored)) eqn:Hcmp.
  - right; left.
    rewrite (verifyOTP_match now1 now2 email otp st stored) by assumption.
    reflexivity.
  - right; right. exists stored.
    rewrite (verifyOTP_mismatch now1 now2 email otp st stored)
      by assumption.
    auto.
Qed.

(** Wrong codes in a row, as long as the budget lasts: each call returns
    [Invalid], and the record stays, with one attempt more per call. *)
Lemma verifyAll_wrong k (calls : list VerifyCall) :
  forall (st : Store) (stored : OTPRecord),
    st !! k = Some stored ->
    Forall (wrongCall bcrypt_compare k stored) calls ->
    attempts stored + Z.of_nat (length calls) <= MAX_VERIFICATION_ATTEMPTS ->
    let run := verifyAll bcrypt_compare calls st in
    run.1 = replicate (length calls) (Normal Invalid) /\
    exists stored',
      run.2 !! k = Some stored' /\
      otpHash stored' = otpHash stored /\
      expiresAt stored' = expiresAt stored /\
      attempts stored' = attempts stored + Z.of_nat (length calls).
Proof.
  induction calls as [| c calls IH]; intros st stored Hst Hwrong Hbudget.
  - cbn. split; [reflexivity |]. exists stored. repeat split; auto. lia.
  - inversion Hwrong as [| c' calls' Hc Hrest]; subst c' calls'.
    destruct Hc as (He & Hk & Ho & Hcmp & Hnow).
    cbn [length] in Hbudget.
    cbn [verifyAll length replicate].
    rewrite (verifyOTP_mismatch (call_now1 c) (call_now2 c) (call_email c)
               (call_otp c) st stored);
      try assumption; try (split; assumption); try congruence; try lia.
    cbn [completion storeAfter]. rewrite Hk.
    specialize (IH (<[k := attempted (call_now2 c) stored]> st)
                  (attempted (call_now2 c) stored)).
    destruct IH as [Hres (stored' & Hst' & Hh & Hx & Ha)].
    + apply lookup_insert_eq.
    + exact Hrest.
    + cbn [attempted attempts]. lia.
    + cbn [fst snd]. split; [f_equal; exact Hres |].
      exists stored'. cbn [attempted otpHash expiresAt attempts] in *.
      repeat split; auto. lia.
Qed.

(** C1 (as the code has it): after [storeOTP] has stored a code for a
    valid email, [MAX_VERIFICATION_ATTEMPTS] = 5 calls of [verifyOTP] for
    that email, each before expiry and each with a well-formed code that
    [bcrypt.compare] rejects, return [Invalid] every time, the fifth call
    included; one further call before expiry with the code that was stored
    returns [AttemptsExceeded], not [Valid], and removes the record. *)
Theorem C1_wrong_codes_then_attempts_exceeded
    s1 s2 s3 salt (email code : string) (st : Store)
    (calls : list VerifyCall) n1 n2 :
  isValidEmail email = true ->
  isValidOTPFormat code = true ->
  s3 <= s1 + OTP_EXPIRATION_MS ->
  let issued := storeAfter (store s1 s2 s3 salt email code st) in
  let stored := freshRecord bcrypt_hash s1 s2 salt code in
  length calls = Z.to_nat MAX_VERIFICATION_ATTEMPTS ->
  Forall (wrongCall bcrypt_compare (normalize email) stored) calls ->
  n1 <= expiresAt stored ->
  let run := verifyAll bcrypt_compare calls issued in
  let further := verify n1 n2 email code run.2 in
  run.1 = replicate 5 (Normal Invalid) /\
  completion further = Normal AttemptsExceeded /\
  storeAfter further !! normalize email = None.
Proof.
  intros He Ho Hs issued stored Hlen Hwrong Hn run further.
  assert (Hwf : wellFormed email code) by (split; assumption).
  assert (Hissued : issued = <[normalize email := stored]> st).
  { subst issued. rewrite storeOTP_within_ttl by assumption. reflexivity. }
  destruct (verifyAll_wrong (normalize email) calls issued stored)
    as [Hres (stored' & Hst' & Hh & Hx & Ha)].
  - rewrite Hissued. apply lookup_insert_eq.
  - exact Hwrong.
  - rewrite Hlen. subst stored. cbn [freshRecord attempts].
    unfold MAX_VERIFICATION_ATTEMPTS. lia.
  - fold run in Hres, Hst'. rewrite Hlen in Hres, Ha.
    split; [exact Hres |].
    subst further.
    rewrite (verifyOTP_exhausted n1 n2 email code run.2 stored');
      try assumption.
    + cbn [completion storeAfter]. split; [reflexivity |].
      apply lookup_delete_eq.
    + rewrite Hx. exact Hn.
    + rewrite Ha. subst stored. cbn [freshRecord attempts].
      unfold MAX_VERIFICATION_ATTEMPTS. lia.
Qed.

(** The bound on the counters holds of the empty store and is kept by
    [storeOTP] and by the cleanup callback, so it holds of every store the
    module can reach. *)
Lemma attemptsBounded_empty : attemptsBounded (∅ : Store).
Proof. intros k stored Hk. rewrite lookup_empty in Hk. discriminate. Qed.

Lemma storeOTP_attemptsBounded
    now1 now2 now3 salt (email otp : JSValue) (st : Store) :
  attemptsBounded st ->
  attemptsBounded (storeAfter (store now1 now2 now3 salt email otp st)).
Proof.
  intros Hbound. unfold storeOTP.
  destruct (isValidEmail email); cbn [negb]; [| exact Hbound].
  destruct (isValidOTPFormat otp); cbn [negb]; [| exact Hbound].
  destruct email as [| | | | e]; try exact Hbound.
  destruct otp as [| | | | o]; try exact Hbound.
  cbv zeta. rewrite lookup_insert_eq. cbn [expiresAt].
  assert (Hfresh :
    attemptsBounded
      (<[normalize e := freshRecord bcrypt_hash now1 now2 salt o]> st)).
  { intros k stored Hk.
    apply lookup_insert_Some in Hk as [[_ <-] | [_ Hk]]; [| eauto].
    cbn. unfold MAX_VERIFICATION_ATTEMPTS. lia. }
  destruct (now3 >? now1 + OTP_EXPIRATION_MS); cbn [storeAfter];
    [| exact Hfresh].
  intros k stored Hk. apply lookup_delete_Some in Hk as [_ Hk]. eauto.
Qed.

Lemma cleanupExpired_attemptsBounded now (st : Store) :
  attemptsBounded st -> attemptsBounded (cleanupExpired now st).
Proof.
  intros Hbound k stored Hk. unfold cleanupExpired in Hk.
  apply map_lookup_filter_Some in Hk as [Hk _]. eauto.
Qed.

(** C2 (as the code has it): [verifyOTP] never leaves a counter past the
    budget: if no stored record has more than [MAX_VERIFICATION_ATTEMPTS]
    attempts before a call, none has after it.  A record whose counter has
    reached the budget is removed by the next call for its identity with
    well-formed arguments, whatever the code, and that call returns
    [Expired] or [AttemptsExceeded]. *)
Theorem C2_budget_bounds_attempts_and_is_final
    now1 now2 (email otp : string) (st : Store) :
  attemptsBounded st ->
  let r := verify now1 now2 email otp st in
  attemptsBounded (storeAfter r) /\
  (forall stored,
      wellFormed email otp ->
      st !! normalize email = Some stored ->
      MAX_VERIFICATION_ATTEMPTS <= attempts stored ->
      storeAfter r !! normalize email = None /\
      (completion r = Normal Expired \/
       completion r = Normal AttemptsExceeded)).
Proof.
  intros Hbound r. split.
  - destruct (verifyOTP_store now1 now2 email otp st)
      as [Hsame | [Hdel | (stored & Hst & Hmax & Hins)]];
      fold r in Hsame || fold r in Hdel || fold r in Hins.
    + rewrite Hsame. exact Hbound.
    + rewrite Hdel. intros k stored Hk.
      apply lookup_delete_Some in Hk as [_ Hk]. eauto.
    + rewrite Hins. intros k stored' Hk.
      apply lookup_insert_Some in Hk as [[_ <-] | [_ Hk]]; [| eauto].
      cbn [attempted attempts]. lia.
  - intros stored Hwf Hst Hmax. subst r.
    destruct (Z.lt_ge_cases (expiresAt stored) now1) as [Hnow | Hnow].
    + rewrite (verifyOTP_expired now1 now2 email otp st stored)
        by assumption.
      cbn [completion storeAfter]. split; [apply lookup_delete_eq | auto].
    + rewrite (verifyOTP_exhausted now1 now2 email otp st stored)
        by assumption.
      cbn [completion storeAfter]. split; [apply lookup_delete_eq | auto].
Qed.

End OTPFacts.

(** ** [PlainBcrypt] accepts a code against its own hash *)

Lemma PlainBcrypt_prefix (s t : string) : String.prefix s (s ++ t) = true.
Proof.
  induction s as [| c s IH]; simpl.
  - destruct t; reflexivity.
  - destruct (ascii_dec c c); [exact IH | contradiction].
Qed.

Lemma PlainBcrypt_compare_hash (data : string) (saltRounds : Z)
    (salt : string) :
  PlainBcrypt.compare data (PlainBcrypt.hash data saltRounds salt) = true.
Proof.
  unfold PlainBcrypt.compare, PlainBcrypt.hash.
  replace (data ++ String "$" salt) with ((data ++ "$") ++ salt).
  - apply PlainBcrypt_prefix.
  - induction data as [| c data IH]; [reflexivity |].
    change (String c ((data ++ "$") ++ salt)
            = String c (data ++ String "$" salt)).
    f_equal. exact IH.
Qed.

(** ** Inspecting a record *)

(** One run of the cleanup callback removes every record that has expired
    by then. *)
Lemma cleanupExpired_expired now (st : Store) k stored :
  st !! k = Some stored ->
  expiresAt stored < now ->
  cleanupExpired now st !! k = None.
Proof.
  intros Hst Hnow. unfold cleanupExpired.
  apply map_lookup_filter_None. right.
  intros stored' Hst' Hkeep. cbn in Hkeep.
  rewrite Hst in Hst'. inversion Hst'; subst stored'. lia.
Qed.


(** C9: the object [getOTPInfo] returns has no field for the hash, and it
    is the same on two stores that differ in the hashes they hold and in
    nothing else, for every argument and at every time. *)
Theorem C9_getOTPInfo_independent_of_hash
    now (email : JSValue) (st1 st2 : Store) :
  sameButHashes st1 st2 ->
  getOTPInfo now email st1 = getOTPInfo now email st2.
Proof.
  intros Hsame. unfold getOTPInfo.
  destruct (isValidEmail email); cbn [negb]; [| reflexivity].
  destruct email as [| | b | n | e]; try reflexivity.
  specialize (Hsame (normalize e)). unfold metadata in Hsame.
  destruct (st1 !! normalize e) as [r1 |], (st2 !! normalize e) as [r2 |];
    cbn in Hsame; try discriminate; [| reflexivity].
  inversion Hsame as [[Hx Ha Hc Hl]]. rewrite Hx, Ha, Hc, Hl. reflexivity.
Qed.

(** ** The scenario, evaluated *)

Lemma Scenario_wellFormed :
  isValidEmail Scenario.email = true /\
  isValidOTPFormat Scenario.code = true.
Proof. split; vm_compute; reflexivity. Qed.

Lemma Scenario_wrong_calls :
  Forall
    (wrongCall PlainBcrypt.compare (normalize Scenario.email)
       (freshRecord PlainBcrypt.hash 0 0 "salt" Scenario.code))
    [Scenario.wrong; Scenario.wrong; Scenario.wrong; Scenario.wrong;
     Scenario.wrong].
Proof.
  repeat constructor; vm_compute; congruence.
Qed.

(** C1 on the scenario: five wrong codes, then the right one. *)
Lemma C1_wrong_codes_then_attempts_exceeded_witness :
  (verifyAll PlainBcrypt.compare
     [Scenario.wrong; Scenario.wrong; Scenario.wrong; Scenario.wrong;
      Scenario.wrong] Scenario.issued).1
  = replicate 5 (Normal Invalid) /\
  completion
    (verifyOTP PlainBcrypt.compare 2000 2001 Scenario.email Scenario.code
       Scenario.afterFiveWrong)
  = Normal AttemptsExceeded /\
  storeAfter
    (verifyOTP PlainBcrypt.compare 2000 2001 Scenario.email Scenario.code
       Scenario.afterFiveWrong) !! normalize Scenario.email
  = None.
Proof.
  apply (C1_wrong_codes_then_attempts_exceeded PlainBcrypt.hash
           PlainBcrypt.compare 0 0 1 "salt" Scenario.email Scenario.code ∅
           [Scenario.wrong; Scenario.wrong; Scenario.wrong; Scenario.wrong;
            Scenario.wrong] 2000 2001).
  - apply Scenario_wellFormed.
  - apply Scenario_wellFormed.
  - vm_compute. discriminate.
  - reflexivity.
  - exact Scenario_wrong_calls.
  - vm_compute. discriminate.
Defined.

(** The claim C1 has the last of the five wrong calls return
    [AttemptsExceeded]; on the scenario the fifth wrong call returns
    [Invalid], as the four before it, and it is the sixth call that returns
    [AttemptsExceeded]. *)
Lemma C1_fifth_wrong_call_returns_Invalid :
  (verifyAll PlainBcrypt.compare
     [Scenario.wrong; Scenario.wrong; Scenario.wrong; Scenario.wrong;
      Scenario.wrong; Scenario.wrong] Scenario.issued).1
  = [Normal Invalid; Normal Invalid; Normal Invalid; Normal Invalid;
     Normal Invalid; Normal AttemptsExceeded].
Proof. vm_compute. reflexivity. Qed.

(** C2 on the scenario: the call after the five wrong codes. *)
Lemma C2_budget_bounds_attempts_and_is_final_witness :
  attemptsBounded Scenario.afterFiveWrong /\
  attemptsBounded
    (storeAfter
       (verifyOTP PlainBcrypt.compare 2000 2001 Scenario.email Scenario.code
          Scenario.afterFiveWrong)) /\
  storeAfter
    (verifyOTP PlainBcrypt.compare 2000 2001 Scenario.email Scenario.code
       Scenario.afterFiveWrong) !! normalize Scenario.email
  = None.
Proof.
  assert (Hbound : attemptsBounded Scenario.afterFiveWrong).
  { intros k stored Hk.
    destruct (decide (k = "a@b.com")) as [-> | Hne].
    - vm_compute in Hk. inversion Hk. vm_compute. discriminate.
    - assert (Hnone : Scenario.afterFiveWrong !! k = None).
      { change Scenario.afterFiveWrong
          with (<["a@b.com" :=
                    mkOTPRecord "482193$salt" 300000 5 0 (Some 1001)]>
                  (∅ : Store)).
        rewrite lookup_insert_ne by congruence. apply lookup_empty. }
      congruence. }
  split; [exact Hbound |].
  destruct (C2_budget_bounds_attempts_and_is_final PlainBcrypt.compare
              2000 2001 Scenario.email Scenario.code
              Scenario.afterFiveWrong Hbound) as [Hafter Hfinal].
  split; [exact Hafter |].
  refine (proj1 (Hfinal
            (mkOTPRecord "482193$salt" 300000 5 0 (Some 1001)) _ _ _)).
  - exact Scenario_wellFormed.
  - vm_compute. reflexivity.
  - vm_compute. discriminate.
Defined.

(** The claim C2 has no record left with its counter at the budget once a
    call has returned; on the scenario the fifth wrong call returns
    [Invalid] and leaves the record stored with [attempts = 5]. *)
Lemma C2_record_at_budget_stays_stored :
  Scenario.afterFiveWrong !! normalize Scenario.email
  = Some (mkOTPRecord "482193$salt" 300000 5 0 (Some 1001)) /\
  MAX_VERIFICATION_ATTEMPTS = 5.
Proof. split; vm_compute; reflexivity. Qed.

(** C3 on the scenario: the right code at once, then once more. *)
Lemma C3_right_code_is_single_use_witness :
  completion
    (verifyOTP PlainBcrypt.compare 1000 1001 Scenario.email Scenario.code
       Scenario.issued)
  = Normal Valid /\
  completion
    (verifyOTP PlainBcrypt.compare 2000 2001 Scenario.email Scenario.code
       (storeAfter
          (verifyOTP PlainBcrypt.compare 1000 1001 Scenario.email
             Scenario.code Scenario.issued)))
  = Normal NotFound.
Proof.
  destruct (C3_right_code_is_single_use PlainBcrypt.hash PlainBcrypt.compare
              0 0 1 "salt" Scenario.email Scenario.code ∅
              1000 1001 2000 2001) as (_ & Hfirst & _ & Hsecond).
  - intros data slt _. apply PlainBcrypt_compare_hash.
  - apply Scenario_wellFormed.
  - apply Scenario_wellFormed.
  - vm_compute. discriminate.
  - vm_compute. discriminate.
  - split; [exact Hfirst | exact Hsecond].
Defined.

(** C4 on the scenario: one millisecond after [expiresAt]. *)
Lemma C4_expired_strictly_after_expiresAt_witness :
  completion
    (verifyOTP PlainBcrypt.compare 300001 300002 Scenario.email
       Scenario.code Scenario.issued)
  = Normal Expired /\
  storeAfter
    (verifyOTP PlainBcrypt.compare 300001 300002 Scenario.email
       Scenario.code Scenario.issued) !! normalize Scenario.email
  = None.
Proof.
  destruct (C4_expired_strictly_after_expiresAt PlainBcrypt.compare
              300001 300002 Scenario.email Scenario.code Scenario.issued
              (freshRecord PlainBcrypt.hash 0 0 "salt" Scenario.code))
    as [Hafter _].
  - apply Scenario_wellFormed.
  - apply Scenario_wellFormed.
  - vm_compute. reflexivity.
  - destruct Hafter as (Hexpired & _ & Hgone & _).
    + vm_compute. reflexivity.
    + split; [exact Hexpired | exact Hgone].
Defined.

(** The claim C4 has a call at [now = expiresAt] delete the record and
    return [Expired]; on the scenario [expiresAt] is 300000, and the call
    made at 300000 with the right code returns [Valid]. *)
Lemma C4_call_at_expiresAt_is_not_expired :
  expiresAt <$> (Scenario.issued !! normalize Scenario.email)
  = Some 300000 /\
  completion
    (verifyOTP PlainBcrypt.compare 300000 300000 Scenario.email
       Scenario.code Scenario.issued)
  = Normal Valid /\
  bcryptCalls
    (verifyOTP PlainBcrypt.compare 300000 300000 Scenario.email
       Scenario.code Scenario.issued)
  = [CompareCall Scenario.code "482193$salt"].
Proof. repeat split; vm_compute; reflexivity. Qed.



(** The claim C6 has every call that does not return [Valid] make a
    comparison; on the scenario the call after five wrong codes returns
    [AttemptsExceeded] and has made no call to [bcrypt], while the wrong
    call before it made one. *)
Lemma C6_attempts_exceeded_makes_no_comparison :
  completion
    (verifyOTP PlainBcrypt.compare 1000 1001 Scenario.email "000000"
       Scenario.afterFiveWrong)
  = Normal AttemptsExceeded /\
  bcryptCalls
    (verifyOTP PlainBcrypt.compare 1000 1001 Scenario.email "000000"
       Scenario.afterFiveWrong)
  = [] /\
  bcryptCalls
    (verifyOTP PlainBcrypt.compare 1000 1001 Scenario.email "000000"
       Scenario.issued)
  = [CompareCall "000000" "482193$salt"].
Proof. repeat split; vm_compute; reflexivity. Qed.

(** C7 on the scenario. *)
Lemma C7_storeOTP_stores_fresh_record_witness :
  completion
    (storeOTP PlainBcrypt.hash 0 0 1 "salt" Scenario.email Scenario.code ∅)
  = Normal tt /\
  Scenario.issued !! normalize Scenario.email
  = Some (mkOTPRecord "482193$salt" 300000 0 0 None).
Proof.
  destruct (C7_storeOTP_stores_fresh_record PlainBcrypt.hash 0 0 1 "salt"
              Scenario.email Scenario.code ∅)
    as (Hdone & _ & Hstored & _).
  - apply Scenario_wellFormed.
  - apply Scenario_wellFormed.
  - vm_compute. discriminate.
  - split; [exact Hdone | exact Hstored].
Defined.

(** The claim C7 has every successful [storeOTP] leave the fresh record in
    the store, its cleanup test never deleting it; with the clock at 0 when
    the expiry is set (300000) and at 300001 when the cleanup test runs,
    after the hashing, the call returns normally and has deleted the
    record. *)
Lemma C7_cleanup_test_deletes_expired_fresh_record :
  completion
    (storeOTP PlainBcrypt.hash 0 0 300001 "salt" Scenario.email
       Scenario.code ∅)
  = Normal tt /\
  storeAfter
    (storeOTP PlainBcrypt.hash 0 0 300001 "salt" Scenario.email
       Scenario.code ∅) !! normalize Scenario.email
  = None.
Proof. split; vm_compute; reflexivity. Qed.

(** C9 on the scenario: the same email with two different hashes. *)
Lemma C9_getOTPInfo_independent_of_hash_witness :
  otpHash <$> (Scenario.issued !! normalize Scenario.email)
  = Some "482193$salt" /\
  otpHash <$> (Scenario.issuedOtherHash !! normalize Scenario.email)
  = Some "111111$pepper" /\
  getOTPInfo 1000 Scenario.email Scenario.issued
  = getOTPInfo 1000 Scenario.email Scenario.issuedOtherHash.
Proof.
  split; [vm_compute; reflexivity |].
  split; [vm_compute; reflexivity |].
  apply C9_getOTPInfo_independent_of_hash.
  intros k.
  change Scenario.issued
    with (<["a@b.com" := mkOTPRecord "482193$salt" 300000 0 0 None]>
            (∅ : Store)).
  change Scenario.issuedOtherHash
    with (<["a@b.com" := mkOTPRecord "111111$pepper" 300000 0 0 None]>
            (∅ : Store)).
  destruct (decide (k = "a@b.com")) as [-> | Hne].
  - rewrite !lookup_insert_eq. reflexivity.
  - rewrite !lookup_insert_ne by congruence. reflexivity.
Defined.

(** * The rest of the module and its callers *)

(** ** Trimming and lower-casing *)

Module JSStringFacts.
Import JSString.

Lemma append_nil_r (s : string) : s ++ EmptyString = s.
Proof.
  induction s as [| c s IH]; [reflexivity |].
  change (String c (s ++ EmptyString) = String c s). now rewrite IH.
Qed.

Lemma append_assoc (s1 s2 s3 : string) :
  (s1 ++ s2) ++ s3 = s1 ++ (s2 ++ s3).
Proof.
  induction s1 as [| c s1 IH]; [reflexivity |].
  change (String c ((s1 ++ s2) ++ s3) = String c (s1 ++ (s2 ++ s3))).
  now rewrite IH.
Qed.

Lemma rev_app_append (s1 s2 : string) :
  String.rev_app s1 s2 = String.rev s1 ++ s2.
Proof.
  unfold String.rev. revert s2.
  induction s1 as [| c s1 IH]; intros s2; [reflexivity |].
  cbn [String.rev_app]. rewrite (IH (String c s2)), (IH (String c _)).
  rewrite append_assoc. reflexivity.
Qed.

Lemma rev_cons (c : ascii) (s : string) :
  String.rev (String c s) = String.rev s ++ String c EmptyString.
Proof. unfold String.rev at 1. cbn [String.rev_app]. apply rev_app_append. Qed.

Lemma rev_append (s1 s2 : string) :
  String.rev (s1 ++ s2) = String.rev s2 ++ String.rev s1.
Proof.
  induction s1 as [| c s1 IH].
  - cbn. now rewrite append_nil_r.
  - change (String c s1 ++ s2) with (String c (s1 ++ s2)).
    rewrite !rev_cons, IH, append_assoc. reflexivity.
Qed.

Lemma rev_involutive (s : string) : String.rev (String.rev s) = s.
Proof.
  induction s as [| c s IH]; [reflexivity |].
  rewrite rev_cons, rev_append, IH. reflexivity.
Qed.

(** [trimStart] on a concatenation. *)
Lemma trimStart_append (s1 s2 : string) :
  trimStart (s1 ++ s2) =
  if forallb isWhiteSpace s1 then trimStart s2 else trimStart s1 ++ s2.
Proof.
  induction s1 as [| c s1 IH]; [reflexivity |].
  change (String c s1 ++ s2) with (String c (s1 ++ s2)).
  cbn [trimStart forallb]. destruct (isWhiteSpace c); cbn [andb].
  - exact IH.
  - reflexivity.
Qed.

Lemma trimStart_empty (s : string) :
  trimStart s = EmptyString <-> forallb isWhiteSpace s = true.
Proof.
  induction s as [| c s IH]; cbn [trimStart forallb].
  - tauto.
  - destruct (isWhiteSpace c); cbn [andb]; [exact IH |].
    split; discriminate.
Qed.

Lemma forallb_rev (p : ascii -> bool) (s : string) :
  forallb p (String.rev s) = forallb p s.
Proof.
  assert (Happ : forall s1 s2,
             forallb p (s1 ++ s2) = forallb p s1 && forallb p s2).
  { induction s1 as [| c s1 IH]; intros s2; [reflexivity |].
    change (String c s1 ++ s2) with (String c (s1 ++ s2)).
    cbn [forallb]. rewrite IH. apply andb_assoc. }
  induction s as [| c s IH]; [reflexivity |].
  rewrite rev_cons, Happ, IH. cbn [forallb].
  rewrite andb_true_r. apply andb_comm.
Qed.

(** [trimEnd], read from the front of the string: a character is dropped
    when it is white space and nothing is left of what follows it. *)
Lemma trimEnd_cons (c : ascii) (s : string) :
  trimEnd (String c s) =
  if isWhiteSpace c && String.eqb (trimEnd s) EmptyString then EmptyString
  else String c (trimEnd s).
Proof.
  unfold trimEnd. rewrite rev_cons, trimStart_append.
  destruct (forallb isWhiteSpace (String.rev s)) eqn:Hall.
  - apply trimStart_empty in Hall as Hempty. rewrite Hempty.
    cbn [trimStart String.rev String.rev_app String.eqb].
    rewrite andb_true_r. destruct (isWhiteSpace c); reflexivity.
  - rewrite rev_append.
    destruct (String.eqb_spec (String.rev (trimStart (String.rev s)))
                EmptyString) as [Hempty | Hne].
    + apply (f_equal String.rev) in Hempty.
      rewrite rev_involutive in Hempty. cbn in Hempty.
      apply trimStart_empty in Hempty. congruence.
    + rewrite andb_false_r. reflexivity.
Qed.

Lemma trimEnd_nil : trimEnd EmptyString = EmptyString.
Proof. reflexivity. Qed.

Lemma trimEnd_idempotent (s : string) : trimEnd (trimEnd s) = trimEnd s.
Proof.
  induction s as [| c s IH]; [reflexivity |].
  rewrite trimEnd_cons.
  destruct (isWhiteSpace c && String.eqb (trimEnd s) EmptyString) eqn:Hdrop;
    [reflexivity |].
  rewrite trimEnd_cons, IH, Hdrop. reflexivity.
Qed.

Lemma trimStart_idempotent (s : string) : trimStart (trimStart s) = trimStart s.
Proof.
  induction s as [| c s IH]; [reflexivity |].
  cbn [trimStart]. destruct (isWhiteSpace c) eqn:Hc; [exact IH |].
  cbn [trimStart]. now rewrite Hc.
Qed.

(** What [trimStart] returns does not start with white space, and
    [trimEnd] leaves such a string its first character. *)
Lemma trimStart_head (s : string) :
  trimStart s = EmptyString \/
  exists c s', trimStart s = String c s' /\ isWhiteSpace c = false.
Proof.
  induction s as [| c s IH]; [now left |].
  cbn [trimStart]. destruct (isWhiteSpace c) eqn:Hc; [exact IH |].
  right. eauto.
Qed.

Lemma trimStart_trimEnd (s : string) :
  trimStart (trimEnd (trimStart s)) = trimEnd (trimStart s).
Proof.
  destruct (trimStart_head s) as [-> | (c & s' & -> & Hc)]; [reflexivity |].
  rewrite trimEnd_cons, Hc. cbn [andb trimStart]. now rewrite Hc.
Qed.

Lemma trim_idempotent (s : string) : trim (trim s) = trim s.
Proof.
  unfold trim. rewrite trimStart_trimEnd. apply trimEnd_idempotent.
Qed.

(** Lower-casing keeps white space white space and everything else
    something else, and a second lower-casing changes nothing. *)
Lemma isWhiteSpace_toLowerChar (c : ascii) :
  isWhiteSpace (toLowerChar c) = isWhiteSpace c.
Proof.
  destruct c as [[] [] [] [] [] [] [] []]; vm_compute; reflexivity.
Qed.

Lemma toLowerChar_idempotent (c : ascii) :
  toLowerChar (toLowerChar c) = toLowerChar c.
Proof.
  destruct c as [[] [] [] [] [] [] [] []]; vm_compute; reflexivity.
Qed.

Lemma toLowerCase_idempotent (s : string) :
  toLowerCase (toLowerCase s) = toLowerCase s.
Proof.
  induction s as [| c s IH]; [reflexivity |].
  cbn [toLowerCase]. now rewrite toLowerChar_idempotent, IH.
Qed.

Lemma toLowerCase_trimStart (s : string) :
  toLowerCase (trimStart s) = trimStart (toLowerCase s).
Proof.
  induction s as [| c s IH]; [reflexivity |].
  cbn [trimStart toLowerCase]. rewrite isWhiteSpace_toLowerChar.
  destruct (isWhiteSpace c); [exact IH | reflexivity].
Qed.

Lemma toLowerCase_empty (s : string) :
  String.eqb (toLowerCase s) EmptyString = String.eqb s EmptyString.
Proof. destruct s; reflexivity. Qed.

Lemma toLowerCase_trimEnd (s : string) :
  toLowerCase (trimEnd s) = trimEnd (toLowerCase s).
Proof.
  induction s as [| c s IH]; [reflexivity |].
  cbn [toLowerCase]. rewrite !trimEnd_cons, isWhiteSpace_toLowerChar, <- IH.
  rewrite toLowerCase_empty.
  destruct (isWhiteSpace c && String.eqb (trimEnd s) EmptyString);
    reflexivity.
Qed.

Lemma toLowerCase_trim (s : string) :
  toLowerCase (trim s) = trim (toLowerCase s).
Proof.
  unfold trim. now rewrite toLowerCase_trimEnd, toLowerCase_trimStart.
Qed.

End JSStringFacts.

(** ** One identity, many spellings *)

Lemma emailRegex_rejects_empty : Regex.test emailRegex EmptyString = false.
Proof. reflexivity. Qed.

Lemma isValidEmail_unfold (e : string) :
  isValidEmail e
  = negb (String.eqb e EmptyString) && Regex.test emailRegex (normalize e).
Proof.
  unfold isValidEmail, normalize. cbn [truthy typeofString negb].
  rewrite orb_false_r. destruct (String.eqb e EmptyString); reflexivity.
Qed.

Lemma normalize_normalize (e : string) : normalize (normalize e) = normalize e.
Proof.
  unfold normalize.
  rewrite <- JSStringFacts.toLowerCase_trim.
  rewrite JSStringFacts.toLowerCase_idempotent.
  now rewrite JSStringFacts.trim_idempotent.
Qed.

Lemma isValidEmail_normalize (e : string) :
  isValidEmail (normalize e) = isValidEmail e.
Proof.
  rewrite !isValidEmail_unfold, normalize_normalize.
  destruct (Regex.test emailRegex (normalize e)) eqn:Htest;
    [| now rewrite !andb_false_r].
  rewrite !andb_true_r.
  destruct (String.eqb_spec e EmptyString) as [-> | _];
    [discriminate Htest |].
  destruct (String.eqb_spec (normalize e) EmptyString) as [Hempty | _];
    [| reflexivity].
  rewrite Hempty in Htest. discriminate Htest.
Qed.

(** Normalizing twice is normalizing once, and the normalized email is as
    valid as the email it comes from: the key under which [storeOTP] files
    a record is itself an email the module accepts, in the same form, and
    [getOTPInfo] reports it as the [email] of the record. *)
Theorem normalize_idempotent (e : string) :
  normalize (normalize e) = normalize e /\
  isValidEmail (normalize e) = isValidEmail e /\
  (forall now (st : Store) info,
      getOTPInfo now e st = Normal (Some info) ->
      info_email info = normalize e /\
      getOTPInfo now (info_email info) st = Normal (Some info)).
Proof.
  split; [apply normalize_normalize |].
  split; [apply isValidEmail_normalize |].
  intros now st info. unfold getOTPInfo.
  destruct (isValidEmail e) eqn:He; cbn [negb]; [| discriminate].
  cbv zeta. destruct (st !! normalize e) as [stored |] eqn:Hst;
    [| discriminate].
  intros Hinfo. injection Hinfo as <-. cbn [info_email].
  split; [reflexivity |].
  rewrite isValidEmail_normalize, He. cbn [negb].
  rewrite normalize_normalize, Hst. reflexivity.
Qed.

Lemma isValidEmail_same_normal_form (e1 e2 : string) :
  normalize e1 = normalize e2 -> isValidEmail e1 = isValidEmail e2.
Proof.
  intros Hn. rewrite !isValidEmail_unfold, Hn.
  destruct (Regex.test emailRegex (normalize e2)) eqn:Htest;
    [| now rewrite !andb_false_r].
  rewrite !andb_true_r.
  destruct (String.eqb_spec e1 EmptyString) as [-> | _].
  { rewrite <- Hn in Htest. discriminate Htest. }
  destruct (String.eqb_spec e2 EmptyString) as [-> | _];
    [discriminate Htest | reflexivity].
Qed.

(** Two emails with the same normalized form (they differ in letter case
    or in white space around them) are one identity to the module: each of
    its functions returns the same and leaves the same store on both. *)
Theorem operations_ignore_spelling
    (bcrypt_hash : string -> Z -> string -> string)
    (bcrypt_compare : string -> string -> bool)
    (e1 e2 : string) :
  normalize e1 = normalize e2 ->
  isValidEmail e1 = isValidEmail e2 /\
  (forall now1 now2 now3 salt otp st,
      storeOTP bcrypt_hash now1 now2 now3 salt e1 otp st
      = storeOTP bcrypt_hash now1 now2 now3 salt e2 otp st) /\
  (forall now1 now2 otp st,
      verifyOTP bcrypt_compare now1 now2 e1 otp st
      = verifyOTP bcrypt_compare now1 now2 e2 otp st) /\
  (forall st, deleteOTP e1 st = deleteOTP e2 st) /\
  (forall now st, getOTPInfo now e1 st = getOTPInfo now e2 st).
Proof.
  intros Hn. pose proof (isValidEmail_same_normal_form e1 e2 Hn) as Hv.
  split; [exact Hv |]. repeat split; intros.
  - unfold storeOTP. rewrite Hv.
    destruct (isValidEmail e2); cbn [negb]; [| reflexivity].
    destruct (isValidOTPFormat otp); cbn [negb]; [| reflexivity].
    destruct otp; try reflexivity. cbv zeta. now rewrite Hn.
  - unfold verifyOTP. rewrite Hv.
    destruct (isValidEmail e2); cbn [negb]; [| reflexivity].
    destruct (isValidOTPFormat otp); cbn [negb]; [| reflexivity].
    destruct otp; try reflexivity. cbv zeta. now rewrite Hn.
  - unfold deleteOTP. rewrite Hv.
    destruct (isValidEmail e2); cbn [negb]; [| reflexivity].
    cbv zeta. now rewrite Hn.
  - unfold getOTPInfo. rewrite Hv.
    destruct (isValidEmail e2); cbn [negb]; [| reflexivity].
    cbv zeta. now rewrite Hn.
Qed.

(** A record stored under one spelling is found under another. *)
Lemma operations_ignore_spelling_witness :
  normalize "  A@B.Com " = normalize "a@b.com" /\
  storeAfter
    (storeOTP PlainBcrypt.hash 0 0 1 "salt" "  A@B.Com " Scenario.code ∅)
  = Scenario.issued /\
  completion
    (verifyOTP PlainBcrypt.compare 1000 1001 "  A@B.Com " Scenario.code
       Scenario.issued)
  = Normal Valid.
Proof.
  assert (Hn : normalize "  A@B.Com " = normalize "a@b.com")
    by (vm_compute; reflexivity).
  destruct (operations_ignore_spelling PlainBcrypt.hash PlainBcrypt.compare
              "  A@B.Com " "a@b.com" Hn) as (_ & Hstore & Hverify & _).
  split; [exact Hn |]. split.
  - rewrite Hstore. reflexivity.
  - rewrite Hverify. vm_compute. reflexivity.
Defined.

(** ** Arguments the validators turn away *)

Lemma isValidEmail_not_string (v : JSValue) :
  typeofString v = false \/ v = JSStr EmptyString -> isValidEmail v = false.
Proof.
  unfold isValidEmail. intros [Hv | ->]; [| reflexivity].
  rewrite Hv. cbn [negb]. now rewrite orb_true_r.
Qed.

Lemma isValidOTPFormat_not_string (v : JSValue) :
  typeofString v = false \/ v = JSStr EmptyString ->
  isValidOTPFormat v = false.
Proof.
  unfold isValidOTPFormat. intros [Hv | ->]; [| reflexivity].
  rewrite Hv. cbn [negb]. now rewrite orb_true_r.
Qed.

(** An email that is not a string ([undefined], [null], a boolean, a
    number) or is the empty string is turned away by every function of the
    module before the store is read: [verifyOTP] returns the result object
    for an invalid email, [storeOTP] throws, [deleteOTP] returns [false]
    and [getOTPInfo] returns [null]; the store is left as it was and
    [bcrypt] is not called.  With a valid email, a code that is not a
    string (the number 482193, say) or is empty is turned away in the same
    way by [verifyOTP] and [storeOTP]. *)
Theorem non_strings_are_turned_away
    (bcrypt_hash : string -> Z -> string -> string)
    (bcrypt_compare : string -> string -> bool)
    (email otp : JSValue) (st : Store) :
  (typeofString email = false \/ email = JSStr EmptyString ->
   (forall now1 now2,
       verifyOTP bcrypt_compare now1 now2 email otp st
       = mkRun (Normal InvalidEmailFormat) st []) /\
   (forall now1 now2 now3 salt,
       storeOTP bcrypt_hash now1 now2 now3 salt email otp st
       = mkRun (Throw "Invalid email format") st []) /\
   deleteOTP email st = mkRun (Normal false) st [] /\
   (forall now, getOTPInfo now email st = Normal None)) /\
  (isValidEmail email = true ->
   typeofString otp = false \/ otp = JSStr EmptyString ->
   (forall now1 now2,
       verifyOTP bcrypt_compare now1 now2 email otp st
       = mkRun (Normal InvalidOTPFormat) st []) /\
   (forall now1 now2 now3 salt,
       storeOTP bcrypt_hash now1 now2 now3 salt email otp st
       = mkRun (Throw "Invalid OTP format") st [])).
Proof.
  split.
  - intros Hemail. apply isValidEmail_not_string in Hemail.
    unfold verifyOTP, storeOTP, deleteOTP, getOTPInfo. rewrite Hemail.
    repeat split.
  - intros Hemail Hotp. apply isValidOTPFormat_not_string in Hotp.
    unfold verifyOTP, storeOTP. rewrite Hemail, Hotp. repeat split.
Qed.

(** A code sent as a number is turned away although its digits are
    right. *)
Lemma non_strings_are_turned_away_witness :
  verifyOTP PlainBcrypt.compare 1000 1001 Scenario.email (JSNum 482193)
    Scenario.issued
  = mkRun (Normal InvalidOTPFormat) Scenario.issued [] /\
  verifyOTP PlainBcrypt.compare 1000 1001 JSUndefined Scenario.code
    Scenario.issued
  = mkRun (Normal InvalidEmailFormat) Scenario.issued [].
Proof.
  destruct (non_strings_are_turned_away PlainBcrypt.hash PlainBcrypt.compare
              Scenario.email (JSNum 482193) Scenario.issued)
    as [_ Hotp].
  destruct (non_strings_are_turned_away PlainBcrypt.hash PlainBcrypt.compare
              JSUndefined Scenario.code Scenario.issued)
    as [Hemail _].
  split.
  - apply Hotp; [apply Scenario_wellFormed | left; reflexivity].
  - apply Hemail. left. reflexivity.
Defined.

(** ** Other identities are left alone *)

(** No call changes the record of another identity: after [storeOTP],
    [verifyOTP] or [deleteOTP] for an email, whatever the other arguments
    and however the call ends, every entry whose key is not the normalized
    email is what it was. *)
Theorem other_identities_untouched
    (bcrypt_hash : string -> Z -> string -> string)
    (bcrypt_compare : string -> string -> bool)
    (email : string) (otp : JSValue) (st : Store) (k : string) :
  k <> normalize email ->
  (forall now1 now2 now3 salt,
      storeAfter (storeOTP bcrypt_hash now1 now2 now3 salt email otp st) !! k
      = st !! k) /\
  (forall now1 now2,
      storeAfter (verifyOTP bcrypt_compare now1 now2 email otp st) !! k
      = st !! k) /\
  storeAfter (deleteOTP email st) !! k = st !! k.
Proof.
  intros Hk. repeat split; intros.
  - unfold storeOTP.
    destruct (isValidEmail email); cbn [negb]; [| reflexivity].
    destruct (isValidOTPFormat otp); cbn [negb]; [| reflexivity].
    destruct otp; try reflexivity. cbv zeta.
    rewrite lookup_insert_eq. cbn [expiresAt].
    destruct (now3 >? now1 + OTP_EXPIRATION_MS); cbn [storeAfter].
    + rewrite lookup_delete_ne, lookup_insert_ne by congruence. reflexivity.
    + rewrite lookup_insert_ne by congruence. reflexivity.
  - unfold verifyOTP.
    destruct (isValidEmail email); cbn [negb]; [| reflexivity].
    destruct (isValidOTPFormat otp); cbn [negb]; [| reflexivity].
    destruct otp; try reflexivity. cbv zeta.
    destruct (st !! normalize email) as [stored |]; [| reflexivity].
    destruct (now1 >? expiresAt stored); cbn [storeAfter].
    { rewrite lookup_delete_ne by congruence. reflexivity. }
    destruct (attempts stored >=? MAX_VERIFICATION_ATTEMPTS);
      cbn [storeAfter].
    { rewrite lookup_delete_ne by congruence. reflexivity. }
    cbn [otpHash].
    destruct (bcrypt_compare s (otpHash stored)); cbn [storeAfter].
    + rewrite lookup_delete_ne, lookup_insert_ne by congruence. reflexivity.
    + rewrite !lookup_insert_ne by congruence. reflexivity.
  - unfold deleteOTP.
    destruct (isValidEmail email); cbn [negb]; [| reflexivity].
    cbn [storeAfter]. rewrite lookup_delete_ne by congruence. reflexivity.
Qed.

(** A wrong code for a@b.com leaves the record of c@d.org alone. *)
Lemma other_identities_untouched_witness :
  storeAfter
    (verifyOTP PlainBcrypt.compare 1000 1001 "a@b.com" "000000"
       (<["c@d.org" := mkOTPRecord "h" 300000 0 0 None]> Scenario.issued))
    !! "c@d.org"
  = Some (mkOTPRecord "h" 300000 0 0 None).
Proof.
  destruct (other_identities_untouched PlainBcrypt.hash PlainBcrypt.compare
              "a@b.com" "000000"
              (<["c@d.org" := mkOTPRecord "h" 300000 0 0 None]>
                 Scenario.issued) "c@d.org") as (_ & Hverify & _).
  - vm_compute. discriminate.
  - rewrite Hverify. apply lookup_insert_eq.
Defined.

(** ** Removing records: [deleteOTP], [clearAllOTPs], the cleanup timer *)



(** [clearAllOTPs] returns the number of identities that had a record and
    leaves none: afterwards [verifyOTP] accepts no code ([valid] is false
    for all arguments, and the result is [NotFound] when they are
    well-formed), [getOTPInfo] returns [null] or rejects the email, and a
    second [clearAllOTPs] returns 0. *)
Theorem clearAllOTPs_leaves_nothing
    (bcrypt_compare : string -> string -> bool) (st : Store) :
  let cleared := clearAllOTPs st in
  completion cleared = Normal (size (dom st)) /\
  (forall now1 now2 (email otp : string),
      let r := verifyOTP bcrypt_compare now1 now2 email otp
                 (storeAfter cleared) in
      (exists result,
          completion r = Normal result /\ valid result = false) /\
      (wellFormed email otp -> completion r = Normal NotFound)) /\
  (forall now (email : string),
      getOTPInfo now email (storeAfter cleared) = Normal None) /\
  completion (clearAllOTPs (storeAfter cleared)) = Normal 0%nat.
Proof.
  cbv zeta. unfold clearAllOTPs. cbn [completion storeAfter].
  split; [now rewrite size_dom |]. split; [| split].
  - intros now1 now2 email otp. unfold verifyOTP.
    destruct (isValidEmail email) eqn:He; cbn [negb completion].
    2: { split; [eauto | intros [He' _]; congruence]. }
    destruct (isValidOTPFormat otp) eqn:Ho; cbn [negb completion].
    2: { split; [eauto | intros [_ Ho']; congruence]. }
    cbv zeta. rewrite lookup_empty. cbn [completion]. split; eauto.
  - intros now email. unfold getOTPInfo.
    destruct (isValidEmail email); cbn [negb]; [| reflexivity].
    cbv zeta. now rewrite lookup_empty.
  - now rewrite map_size_empty.
Qed.

(** The keys the callback collects are those of the expired entries. *)
Lemma elem_of_keysToDelete now (st : Store) (k : string) :
  k ∈ keysToDelete now st <->
  exists stored, st !! k = Some stored /\ expiresAt stored < now.
Proof.
  unfold keysToDelete. rewrite list_elem_of_fmap. split.
  - intros ([k' stored] & -> & Hin).
    apply list_elem_of_filter in Hin as [Hexp Hin].
    apply elem_of_map_to_list in Hin. eauto.
  - intros (stored & Hst & Hexp). exists (k, stored). split; [reflexivity |].
    apply list_elem_of_filter. split; [exact Hexp |].
    now apply elem_of_map_to_list.
Qed.

Lemma lookup_foldr_delete (keys : list string) (st : Store) (k : string) :
  foldr delete st keys !! k = if decide (k ∈ keys) then None else st !! k.
Proof.
  induction keys as [| k' keys IH]; cbn [foldr].
  - destruct (decide (k ∈ [])) as [Hin | _]; [| reflexivity].
    now apply not_elem_of_nil in Hin.
  - destruct (decide (k = k')) as [-> | Hne].
    + rewrite lookup_delete_eq.
      destruct (decide (k' ∈ k' :: keys)) as [_ | Hout]; [reflexivity |].
      exfalso. apply Hout. left.
    + rewrite lookup_delete_ne by congruence. rewrite IH.
      destruct (decide (k ∈ keys)) as [Hin | Hout],
               (decide (k ∈ k' :: keys)) as [Hin' | Hout'];
        try reflexivity.
      * exfalso. apply Hout'. now right.
      * exfalso. apply elem_of_cons in Hin' as [? | ?]; contradiction.
Qed.

(** Deleting the collected keys one by one is filtering the map. *)
Lemma cleanupCallback_store now (st : Store) :
  (cleanupCallback now st).1 = cleanupExpired now st.
Proof.
  unfold cleanupCallback, cleanupExpired. cbn [fst]. apply map_eq. intros k.
  rewrite lookup_foldr_delete.
  destruct (decide (k ∈ keysToDelete now st)) as [Hin | Hout].
  - apply elem_of_keysToDelete in Hin as (stored & Hst & Hexp).
    symmetry. apply map_lookup_filter_None. right.
    intros stored' Hst' Hkeep. cbn in Hkeep.
    rewrite Hst in Hst'. inversion Hst'; subst stored'. lia.
  - destruct (st !! k) as [stored |] eqn:Hst.
    + symmetry. apply map_lookup_filter_Some. split; [exact Hst |].
      cbn. intros Hexp. apply Hout. apply elem_of_keysToDelete. eauto.
    + symmetry. apply map_lookup_filter_None. now left.
Qed.

Lemma length_keysToDelete now (st : Store) :
  (length (keysToDelete now st) + size (cleanupExpired now st))%nat = size st.
Proof.
  unfold keysToDelete, cleanupExpired.
  rewrite length_fmap.
  rewrite <- (length_map_to_list (filter _ st)), <- (length_map_to_list st).
  rewrite <- (Permutation_length
                (filter_app_complement
                   (fun kv : string * OTPRecord => expiresAt kv.2 < now)
                   (map_to_list st))).
  rewrite length_app. f_equal.
  apply Permutation_length, NoDup_Permutation.
  - apply NoDup_map_to_list.
  - apply NoDup_filter, NoDup_map_to_list.
  - intros [k stored]. rewrite elem_of_map_to_list, map_lookup_filter_Some.
    rewrite list_elem_of_filter, elem_of_map_to_list. cbn. tauto.
Qed.

(** A run of the cleanup callback at time [now] removes the records with
    [expiresAt < now] and no other, and leaves the records it keeps as they
    were; what it logs is the number of records it removed, and it logs
    nothing when it removed none.  A second run at the same time removes
    nothing and logs nothing. *)
Theorem cleanupCallback_removes_the_expired now (st : Store) :
  let swept := (cleanupCallback now st).1 in
  (forall k,
      swept !! k =
      match st !! k with
      | Some stored => if now >? expiresAt stored then None else Some stored
      | None => None
      end) /\
  (cleanupCallback now st).2 =
    (if (0 <? size st - size swept)%nat
     then Some (size st - size swept)%nat else None) /\
  cleanupCallback now swept = (swept, None).
Proof.
  cbv zeta. rewrite cleanupCallback_store. split; [| split].
  - intros k. unfold cleanupExpired.
    destruct (st !! k) as [stored |] eqn:Hst.
    + destruct (Z.gtb_spec now (expiresAt stored)) as [Hexp | Hlive].
      * apply map_lookup_filter_None. right.
        intros stored' Hst' Hkeep. cbn in Hkeep.
        rewrite Hst in Hst'. inversion Hst'; subst stored'. lia.
      * apply map_lookup_filter_Some. split; [exact Hst | cbn; lia].
    + apply map_lookup_filter_None. now left.
  - unfold cleanupCallback. cbn [snd].
    pose proof (length_keysToDelete now st) as Hcount.
    replace (size st - size (cleanupExpired now st))%nat
      with (length (keysToDelete now st)) by lia.
    reflexivity.
  - assert (Hnone : keysToDelete now (cleanupExpired now st) = []).
    { apply elem_of_nil_inv. intros k Hin.
      apply elem_of_keysToDelete in Hin as (stored & Hst & Hexp).
      unfold cleanupExpired in Hst.
      apply map_lookup_filter_Some in Hst as [_ Hkeep]. cbn in Hkeep. lia. }
    unfold cleanupCallback. rewrite Hnone. reflexivity.
Qed.

(** The cleanup timer never changes what [verifyOTP] accepts.  For a run
    of the callback at a time not after the call's clock reading, calling
    [verifyOTP] on the swept store returns what it returns on the store as
    it was, except that a record the callback has removed is reported as
    [NotFound] where the call would have found it [Expired]; and the store
    the call leaves is the swept form of the store it leaves without the
    run. *)
Theorem cleanup_commutes_with_verifyOTP
    (bcrypt_compare : string -> string -> bool)
    t now1 now2 (email otp : string) (st : Store) :
  t <= now1 ->
  let r := verifyOTP bcrypt_compare now1 now2 email otp st in
  let r' := verifyOTP bcrypt_compare now1 now2 email otp
              (cleanupCallback t st).1 in
  (completion r' = completion r \/
   (completion r = Normal Expired /\ completion r' = Normal NotFound)) /\
  storeAfter r' = (cleanupCallback t (storeAfter r)).1.
Proof.
  intros Ht r r'. subst r r'. rewrite !cleanupCallback_store.
  destruct (isValidEmail email) eqn:He.
  2: { unfold verifyOTP. rewrite He. cbn. auto. }
  destruct (isValidOTPFormat otp) eqn:Ho.
  2: { unfold verifyOTP. rewrite He, Ho. cbn. auto. }
  assert (Hwf : wellFormed email otp) by (split; assumption).
  set (k := normalize email).
  destruct (st !! k) as [stored |] eqn:Hst.
  2: { assert (Hswept : cleanupExpired t st !! k = None)
         by (apply map_lookup_filter_None; now left).
       rewrite !verifyOTP_absent by assumption. cbn. auto. }
  destruct (Z.lt_ge_cases (expiresAt stored) t) as [Hold | Hkept].
  - assert (Hswept : cleanupExpired t st !! k = None)
      by (eapply cleanupExpired_expired; eassumption).
    rewrite (verifyOTP_absent _ _ _ _ _ (cleanupExpired t st)) by assumption.
    rewrite (verifyOTP_expired _ now1 now2 email otp st stored)
      by (assumption || lia).
    cbn [completion storeAfter]. split; [auto |].
    unfold cleanupExpired. rewrite map_filter_delete.
    symmetry. apply delete_id. exact Hswept.
  - assert (Hswept : cleanupExpired t st !! k = Some stored).
    { apply map_lookup_filter_Some. split; [exact Hst | cbn; lia]. }
    destruct (Z.lt_ge_cases (expiresAt stored) now1) as [Hnow | Hnow].
    { rewrite (verifyOTP_expired _ now1 now2 email otp st stored),
        (verifyOTP_expired _ now1 now2 email otp _ stored) by assumption.
      cbn [completion storeAfter]. split; [auto |].
      unfold cleanupExpired. now rewrite map_filter_delete. }
    destruct (Z.le_gt_cases MAX_VERIFICATION_ATTEMPTS (attempts stored))
      as [Hmax | Hmax].
    { rewrite (verifyOTP_exhausted _ now1 now2 email otp st stored),
        (verifyOTP_exhausted _ now1 now2 email otp _ stored)
        by (assumption || lia).
      cbn [completion storeAfter]. split; [auto |].
      unfold cleanupExpired. now rewrite map_filter_delete. }
    destruct (bcrypt_compare otp (otpHash stored)) eqn:Hcmp.
    + rewrite (verifyOTP_match _ now1 now2 email otp st stored),
        (verifyOTP_match _ now1 now2 email otp _ stored)
        by (assumption || lia).
      cbn [completion storeAfter]. split; [auto |].
      unfold cleanupExpired. now rewrite map_filter_delete.
    + rewrite (verifyOTP_mismatch _ now1 now2 email otp st stored),
        (verifyOTP_mismatch _ now1 now2 email otp _ stored)
        by (assumption || lia).
      cbn [completion storeAfter]. split; [auto |].
      unfold cleanupExpired. rewrite map_filter_insert_True; [reflexivity |].
      cbn. lia.
Qed.

(** A record swept at 400000 and asked for at 500000. *)
Lemma cleanup_commutes_with_verifyOTP_witness :
  completion
    (verifyOTP PlainBcrypt.compare 500000 500001 Scenario.email
       Scenario.code Scenario.issued)
  = Normal Expired /\
  completion
    (verifyOTP PlainBcrypt.compare 500000 500001 Scenario.email
       Scenario.code (cleanupCallback 400000 Scenario.issued).1)
  = Normal NotFound /\
  storeAfter
    (verifyOTP PlainBcrypt.compare 500000 500001 Scenario.email
       Scenario.code (cleanupCallback 400000 Scenario.issued).1)
  = (cleanupCallback 400000
       (storeAfter
          (verifyOTP PlainBcrypt.compare 500000 500001 Scenario.email
             Scenario.code Scenario.issued))).1.
Proof.
  split; [vm_compute; reflexivity |].
  split; [vm_compute; reflexivity |].
  apply (cleanup_commutes_with_verifyOTP PlainBcrypt.compare 400000 500000
           500001 Scenario.email Scenario.code Scenario.issued).
  vm_compute. discriminate.
Defined.

(** ** What [getOTPInfo] says about the next [verifyOTP] *)

(** [getOTPInfo] foretells [verifyOTP] at the same time, for a valid email
    and a well-formed code: [null] means [NotFound]; [isExpired] means
    [Expired]; no attempts remaining means [AttemptsExceeded]; otherwise
    the code is compared, and either it is accepted and the record is gone,
    or it is rejected and the record has one attempt less remaining and
    the time of the attempt as [lastAttemptAt].  The attempts made and
    remaining always add up to [MAX_VERIFICATION_ATTEMPTS]. *)
Theorem getOTPInfo_foretells_verifyOTP
    (bcrypt_compare : string -> string -> bool)
    now now2 (email otp : string) (st : Store) :
  isValidEmail email = true ->
  isValidOTPFormat otp = true ->
  let r := verifyOTP bcrypt_compare now now2 email otp st in
  match getOTPInfo now email st with
  | Normal None => completion r = Normal NotFound
  | Normal (Some info) =>
      info_attempts info + info_remainingAttempts info
      = MAX_VERIFICATION_ATTEMPTS /\
      if info_isExpired info then completion r = Normal Expired
      else if info_remainingAttempts info <=? 0 then
        completion r = Normal AttemptsExceeded
      else
        (completion r = Normal Valid /\
         getOTPInfo now email (storeAfter r) = Normal None) \/
        (completion r = Normal Invalid /\
         exists info',
           getOTPInfo now email (storeAfter r) = Normal (Some info') /\
           info_remainingAttempts info' = info_remainingAttempts info - 1 /\
           info_lastAttemptAt info' = Some now2)
  | Throw _ => False
  end.
Proof.
  intros He Ho r. subst r.
  assert (Hwf : wellFormed email otp) by (split; assumption).
  unfold getOTPInfo at 1. rewrite He. cbn [negb]. cbv zeta.
  destruct (st !! normalize email) as [stored |] eqn:Hst.
  2: { rewrite verifyOTP_absent by assumption. reflexivity. }
  cbn [info_attempts info_remainingAttempts info_isExpired].
  split; [lia |].
  destruct (Z.gtb_spec now (expiresAt stored)) as [Hexp | Hlive].
  { rewrite (verifyOTP_expired _ now now2 email otp st stored)
      by assumption.
    reflexivity. }
  destruct (Z.leb_spec (MAX_VERIFICATION_ATTEMPTS - attempts stored) 0)
    as [Hnone | Hsome].
  { rewrite (verifyOTP_exhausted _ now now2 email otp st stored)
      by (assumption || lia).
    reflexivity. }
  destruct (bcrypt_compare otp (otpHash stored)) eqn:Hcmp.
  - left.
    rewrite (verifyOTP_match _ now now2 email otp st stored)
      by (assumption || lia).
    cbn [completion storeAfter]. split; [reflexivity |].
    unfold getOTPInfo. rewrite He. cbn [negb]. cbv zeta.
    now rewrite lookup_delete_eq.
  - right.
    rewrite (verifyOTP_mismatch _ now now2 email otp st stored)
      by (assumption || lia).
    cbn [completion storeAfter]. split; [reflexivity |].
    unfold getOTPInfo. rewrite He. cbn [negb]. cbv zeta.
    rewrite lookup_insert_eq. eexists. split; [reflexivity |].
    cbn. split; [lia | reflexivity].
Qed.

(** The scenario before and after a wrong code. *)
Lemma getOTPInfo_foretells_verifyOTP_witness :
  getOTPInfo 1000 Scenario.email Scenario.issued
  = Normal (Some (mkOTPInfo "a@b.com" 300000 0 5 false 0 None)) /\
  (completion
     (verifyOTP PlainBcrypt.compare 1000 1001 Scenario.email "000000"
        Scenario.issued)
   = Normal Valid /\
   getOTPInfo 1000 Scenario.email
     (storeAfter
        (verifyOTP PlainBcrypt.compare 1000 1001 Scenario.email "000000"
           Scenario.issued))
   = Normal None \/
   completion
     (verifyOTP PlainBcrypt.compare 1000 1001 Scenario.email "000000"
        Scenario.issued)
   = Normal Invalid /\
   exists info',
     getOTPInfo 1000 Scenario.email
       (storeAfter
          (verifyOTP PlainBcrypt.compare 1000 1001 Scenario.email "000000"
             Scenario.issued))
     = Normal (Some info') /\
     info_remainingAttempts info' = 5 - 1 /\
     info_lastAttemptAt info' = Some 1001).
Proof.
  split; [vm_compute; reflexivity |].
  pose proof (getOTPInfo_foretells_verifyOTP PlainBcrypt.compare 1000 1001
                Scenario.email "000000" Scenario.issued
                (proj1 Scenario_wellFormed) eq_refl) as H.
  cbv zeta in H.
  change (getOTPInfo 1000 Scenario.email Scenario.issued)
    with (@Normal (option OTPInfo)
            (Some (mkOTPInfo "a@b.com" 300000 0 5 false 0 None))) in H.
  exact (proj2 H).
Defined.

(** ** The guesses a record allows *)

Section Budget.

Variable bcrypt_compare : string -> string -> bool.

Local Abbreviation verify := (verifyOTP bcrypt_compare).

Lemma budgetLeft_nonneg k (st : Store) : 0 <= budgetLeft k st.
Proof. unfold budgetLeft. destruct (st !! k); lia. Qed.

Lemma not_guessed k (c : VerifyCall) (r : Run VerifyResult) :
  completion r <> Normal Valid ->
  completion r <> Normal Invalid ->
  guessed k c r = false.
Proof.
  intros Hv Hi. unfold guessed. apply bool_decide_eq_false. tauto.
Qed.

(** One call: what it takes from the budget of [k] covers the guess it
    makes at [k]. *)
Lemma guess_is_paid_for k (c : VerifyCall) (st : Store) :
  let r := verify (call_now1 c) (call_now2 c) (call_email c) (call_otp c)
             st in
  (if guessed k c r then 1 else 0) + budgetLeft k (storeAfter r)
  <= budgetLeft k st.
Proof.
  intros r.
  destruct (decide (normalize (call_email c) = k)) as [Hk | Hk].
  2: { assert (Hno : guessed k c r = false).
       { unfold guessed. apply bool_decide_eq_false. tauto. }
       rewrite Hno.
       assert (Hsame : storeAfter r !! k = st !! k).
       { destruct (verifyOTP_store bcrypt_compare (call_now1 c)
                     (call_now2 c) (call_email c) (call_otp c) st)
           as [Hs | [Hs | (stored & _ & _ & Hs)]];
           fold r in Hs; rewrite Hs.
         - reflexivity.
         - apply lookup_delete_ne. congruence.
         - apply lookup_insert_ne. congruence. }
       unfold budgetLeft. rewrite Hsame. lia. }
  subst k. set (k := normalize (call_email c)).
  pose proof (budgetLeft_nonneg k st) as Hnonneg.
  destruct (isValidEmail (call_email c)) eqn:He.
  2: { assert (Hr : r = mkRun (Normal InvalidEmailFormat) st [])
         by (subst r; unfold verifyOTP; now rewrite He).
       rewrite Hr, not_guessed by (cbn; discriminate). cbn. lia. }
  destruct (isValidOTPFormat (call_otp c)) eqn:Ho.
  2: { assert (Hr : r = mkRun (Normal InvalidOTPFormat) st [])
         by (subst r; unfold verifyOTP; now rewrite He, Ho).
       rewrite Hr, not_guessed by (cbn; discriminate). cbn. lia. }
  assert (Hwf : wellFormed (call_email c) (call_otp c))
    by (split; assumption).
  destruct (st !! k) as [stored |] eqn:Hst.
  2: { subst r. rewrite verifyOTP_absent by assumption.
       rewrite not_guessed by (cbn; discriminate). cbn. lia. }
  destruct (Z.lt_ge_cases (expiresAt stored) (call_now1 c)) as [Hnow | Hnow].
  { subst r. rewrite (verifyOTP_expired _ _ _ _ _ st stored) by assumption.
    rewrite not_guessed by (cbn; discriminate). cbn [storeAfter].
    unfold budgetLeft at 1. fold k. rewrite lookup_delete_eq. lia. }
  destruct (Z.le_gt_cases MAX_VERIFICATION_ATTEMPTS (attempts stored))
    as [Hmax | Hmax].
  { subst r. rewrite (verifyOTP_exhausted _ _ _ _ _ st stored)
      by assumption.
    rewrite not_guessed by (cbn; discriminate). cbn [storeAfter].
    unfold budgetLeft at 1. fold k. rewrite lookup_delete_eq. lia. }
  assert (Hleft : budgetLeft k st = MAX_VERIFICATION_ATTEMPTS - attempts stored)
    by (unfold budgetLeft; rewrite Hst; lia).
  destruct (bcrypt_compare (call_otp c) (otpHash stored)) eqn:Hcmp; subst r.
  - rewrite (verifyOTP_match _ _ _ _ _ st stored) by assumption.
    cbn [storeAfter]. unfold budgetLeft at 1. fold k.
    rewrite lookup_delete_eq. destruct (guessed k c _); lia.
  - rewrite (verifyOTP_mismatch _ _ _ _ _ st stored) by assumption.
    cbn [storeAfter]. unfold budgetLeft at 1. fold k.
    rewrite lookup_insert_eq. cbn [attempted attempts].
    destruct (guessed k c _); lia.
Qed.

(** The attempt budget bounds the guesses.  In any sequence of [verifyOTP]
    calls, with any emails, codes and times, the calls for one identity
    that get their code compared with the stored hash (they return [Valid]
    or [Invalid]) are at most as many as the attempts its record had left
    at the start, five for a record just stored and none when there is no
    record, as long as no new code is stored in between. *)
Theorem guesses_within_budget k (calls : list VerifyCall) :
  forall st : Store,
    Z.of_nat (guesses bcrypt_compare k calls st) <= budgetLeft k st /\
    (st !! k = None -> guesses bcrypt_compare k calls st = 0%nat) /\
    (forall stored,
        st !! k = Some stored -> attempts stored = 0 ->
        (guesses bcrypt_compare k calls st <= 5)%nat).
Proof.
  assert (Hbound : forall st : Store,
             Z.of_nat (guesses bcrypt_compare k calls st)
             <= budgetLeft k st).
  { induction calls as [| c calls IH]; intros st.
    - cbn [guesses]. pose proof (budgetLeft_nonneg k st). lia.
    - cbn [guesses].
      pose proof (guess_is_paid_for k c st) as Hstep. cbv zeta in Hstep.
      specialize (IH (storeAfter (verify (call_now1 c) (call_now2 c)
                                    (call_email c) (call_otp c) st))).
      destruct (guessed k c _); lia. }
  intros st. specialize (Hbound st). split; [exact Hbound |].
  unfold budgetLeft in Hbound. split.
  - intros Hst. rewrite Hst in Hbound. lia.
  - intros stored Hst Hzero. rewrite Hst, Hzero in Hbound.
    unfold MAX_VERIFICATION_ATTEMPTS in Hbound. lia.
Qed.

End Budget.

(** Seven wrong codes in a row make five guesses. *)
Example guesses_scenario :
  guesses PlainBcrypt.compare "a@b.com"
    [Scenario.wrong; Scenario.wrong; Scenario.wrong; Scenario.wrong;
     Scenario.wrong; Scenario.wrong; Scenario.wrong] Scenario.issued
  = 5%nat.
Proof. vm_compute. reflexivity. Qed.

(** ** What every reachable store satisfies *)

Section Kept.

Variable bcrypt_hash : string -> Z -> string -> string.
Variable bcrypt_compare : string -> string -> bool.

Lemma storeKept_empty : storeKept (∅ : Store).
Proof. intros k stored Hk. rewrite lookup_empty in Hk. discriminate. Qed.

Lemma storeKept_delete k (st : Store) :
  storeKept st -> storeKept (delete k st).
Proof.
  intros Hkept k' stored Hk'. apply lookup_delete_Some in Hk' as [_ Hk'].
  eauto.
Qed.

Lemma storeKept_insert k stored (st : Store) :
  entryKept k stored -> storeKept st -> storeKept (<[k := stored]> st).
Proof.
  intros Hentry Hkept k' stored' Hk'.
  apply lookup_insert_Some in Hk' as [[<- <-] | [_ Hk']]; eauto.
Qed.

Lemma entryKept_fresh now1 now2 salt (e o : string) :
  isValidEmail e = true ->
  entryKept (normalize e) (freshRecord bcrypt_hash now1 now2 salt o).
Proof.
  intros He. unfold entryKept.
  rewrite isValidEmail_normalize, normalize_normalize.
  cbn. unfold MAX_VERIFICATION_ATTEMPTS. repeat split; auto; lia.
Qed.

Lemma entryKept_attempted k now2 stored :
  attempts stored < MAX_VERIFICATION_ATTEMPTS ->
  entryKept k stored -> entryKept k (attempted now2 stored).
Proof.
  intros Hmax (Hv & Hn & Ha & Hl). unfold entryKept. cbn.
  repeat split; auto; try lia; discriminate.
Qed.

Lemma otpCall_storeKept (c : OTPCall) (st : Store) :
  storeKept st -> storeKept (otpCall bcrypt_hash bcrypt_compare c st).
Proof.
  intros Hkept.
  destruct c as [now1 now2 now3 salt email otp | now1 now2 email otp
                | email | | now]; cbn [otpCall].
  - unfold storeOTP.
    destruct (isValidEmail email) eqn:He; cbn [negb]; [| exact Hkept].
    destruct (isValidOTPFormat otp); cbn [negb]; [| exact Hkept].
    destruct email as [| | | | e]; try exact Hkept.
    destruct otp as [| | | | o]; try exact Hkept.
    cbv zeta. rewrite lookup_insert_eq. cbn [expiresAt].
    assert (Hfresh :
      storeKept
        (<[normalize e := freshRecord bcrypt_hash now1 now2 salt o]> st))
      by (apply storeKept_insert; [now apply entryKept_fresh | exact Hkept]).
    destruct (now3 >? now1 + OTP_EXPIRATION_MS); cbn [storeAfter];
      [apply storeKept_delete |]; exact Hfresh.
  - unfold verifyOTP.
    destruct (isValidEmail email); cbn [negb]; [| exact Hkept].
    destruct (isValidOTPFormat otp); cbn [negb]; [| exact Hkept].
    destruct email as [| | | | e]; try exact Hkept.
    destruct otp as [| | | | o]; try exact Hkept.
    cbv zeta.
    destruct (st !! normalize e) as [stored |] eqn:Hst; [| exact Hkept].
    destruct (now1 >? expiresAt stored); cbn [storeAfter];
      [now apply storeKept_delete |].
    destruct (Z.geb_spec (attempts stored) MAX_VERIFICATION_ATTEMPTS);
      cbn [storeAfter]; [now apply storeKept_delete |].
    assert (Hnew :
      storeKept (<[normalize e := attempted now2 stored]> st)).
    { apply storeKept_insert; [| exact Hkept].
      apply entryKept_attempted; [lia | eauto]. }
    cbn [otpHash].
    destruct (bcrypt_compare o (otpHash stored)); cbn [storeAfter].
    + apply storeKept_delete. exact Hnew.
    + apply storeKept_insert; [| exact Hnew].
      apply entryKept_attempted; [lia | eauto].
  - unfold deleteOTP.
    destruct (isValidEmail email); cbn [negb]; [| exact Hkept].
    destruct email as [| | | | e]; try exact Hkept.
    cbn [storeAfter]. now apply storeKept_delete.
  - cbn. apply storeKept_empty.
  - rewrite cleanupCallback_store. intros k stored Hk.
    unfold cleanupExpired in Hk.
    apply map_lookup_filter_Some in Hk as [Hk _]. eauto.
Qed.

(** Whatever calls are made on the module from the moment it is loaded
    ([storeOTP], [verifyOTP], [deleteOTP], [clearAllOTPs] and runs of the
    cleanup callback, with any arguments, in any order), every record in
    the store is filed under a valid email in normalized form, has between
    0 and [MAX_VERIFICATION_ATTEMPTS] attempts, and has [lastAttemptAt]
    set exactly when an attempt was made; so [getOTPInfo] never reports a
    negative [remainingAttempts]. *)
Theorem reachable_stores_are_kept (calls : list OTPCall) :
  let st := otpCalls bcrypt_hash bcrypt_compare calls ∅ in
  storeKept st /\
  (forall now (email : JSValue) info,
      getOTPInfo now email st = Normal (Some info) ->
      0 <= info_remainingAttempts info <= MAX_VERIFICATION_ATTEMPTS).
Proof.
  cbv zeta.
  assert (Hkept : storeKept (otpCalls bcrypt_hash bcrypt_compare calls ∅)).
  { unfold otpCalls. generalize storeKept_empty.
    generalize (∅ : Store) as st.
    induction calls as [| c calls IH]; intros st Hst; [exact Hst |].
    cbn [fold_left]. apply IH. now apply otpCall_storeKept. }
  split; [exact Hkept |].
  intros now email info. unfold getOTPInfo.
  destruct (isValidEmail email); cbn [negb]; [| discriminate].
  destruct email as [| | | | e]; try discriminate. cbv zeta.
  destruct (otpCalls bcrypt_hash bcrypt_compare calls ∅ !! normalize e)
    as [stored |] eqn:Hst; [| discriminate].
  intros Hinfo. injection Hinfo as <-. cbn [info_remainingAttempts].
  destruct (Hkept _ _ Hst) as (_ & _ & Ha & _). lia.
Qed.

End Kept.

(** ** The cleanup timer *)

Lemma timerCall_oneInterval (c : TimerCall) (t : TimerState) :
  oneInterval t -> oneInterval (timerCall c t).
Proof.
  unfold oneInterval. intros Hone.
  destruct c; cbn [timerCall];
    unfold startCleanupTimer, stopCleanupTimer;
    destruct (cleanupInterval t) as [handle |] eqn:Hheld;
    cbn [activeIntervals cleanupInterval]; rewrite ?Hheld; try exact Hone.
  - now rewrite Hone.
  - rewrite Hone. cbn. now rewrite decide_False by tauto.
Qed.

(** However often and in whatever order [startCleanupTimer] and
    [stopCleanupTimer] are called after the module is loaded, at most one
    cleanup interval is active, the one held in [cleanupInterval]; a
    repeated [startCleanupTimer] sets no second interval, and after
    [stopCleanupTimer] none is active. *)
Theorem at_most_one_cleanup_interval (calls : list TimerCall) :
  let t := timerCalls calls timerAtLoad in
  oneInterval t /\
  (length (activeIntervals t) <= 1)%nat /\
  startCleanupTimer (startCleanupTimer t) = startCleanupTimer t /\
  length (activeIntervals (startCleanupTimer t)) = 1%nat /\
  activeIntervals (stopCleanupTimer t) = [].
Proof.
  cbv zeta.
  assert (Hone : oneInterval (timerCalls calls timerAtLoad)).
  { unfold timerCalls.
    assert (H0 : oneInterval timerAtLoad) by reflexivity.
    revert H0. generalize timerAtLoad as t.
    induction calls as [| c calls IH]; intros t Ht; [exact Ht |].
    cbn [fold_left]. apply IH. now apply timerCall_oneInterval. }
  revert Hone. generalize (timerCalls calls timerAtLoad).
  intros [held active issued]. unfold oneInterval.
  cbn [activeIntervals cleanupInterval]. intros ->.
  unfold startCleanupTimer, stopCleanupTimer.
  destruct held as [handle |]; cbn [activeIntervals cleanupInterval length].
  - repeat split; try lia.
    rewrite filter_cons, decide_False by tauto. reflexivity.
  - repeat split; lia.
Qed.

(** ** The auth service *)

Lemma generateOTP_format (draw : Z) :
  randomIntRange generateOTP_min (generateOTP_max + 1) draw ->
  isValidOTPFormat (generateOTP draw) = true.
Proof.
  unfold randomIntRange, generateOTP_min, generateOTP_max. intros Hdraw.
  unfold generateOTP.
  rewrite (JSNumberFacts.toString_six draw) by lia.
  unfold JSString.padStart. cbn [String.length OTP_LENGTH Nat.leb].
  apply otpRegex_six_digits; apply JSNumberFacts.isDigit_digitChar;
    apply Z.mod_pos_bound; lia.
Qed.

Section ServiceFacts.

Variable bcrypt_hash : string -> Z -> string -> string.
Variable bcrypt_compare : string -> string -> bool.

Local Abbreviation send := (sendOTP bcrypt_hash).
Local Abbreviation resend := (resendOTP bcrypt_hash).
Local Abbreviation verifyCode := (verifyOTPCode bcrypt_compare).

(** [sendOTP] when nothing stands in its way. *)
Lemma sendOTP_issues draw now1 now2 now3 salt transport (email : string)
    (w : World) (user : User) :
  users w !! email = Some user ->
  user_verified user = false ->
  isValidEmail email = true ->
  randomIntRange generateOTP_min (generateOTP_max + 1) draw ->
  now3 <= now1 + OTP_EXPIRATION_MS ->
  send draw now1 now2 now3 salt transport email w =
  (Normal (generateOTP draw),
   mkWorld (users w)
     (<[normalize email :=
          freshRecord bcrypt_hash now1 now2 salt (generateOTP draw)]>
        (otpStore w))
     (sentMail w ++ mailed transport email (generateOTP draw))).
Proof.
  intros Huser Hunverified He Hdraw Hnow. unfold sendOTP.
  rewrite Huser, Hunverified.
  rewrite storeOTP_within_ttl
    by (assumption || (split; [assumption | now apply generateOTP_format])).
  cbn [completion storeAfter]. unfold mailed.
  destruct (sendOTPEmail transport email (generateOTP draw));
    [reflexivity |].
  now rewrite app_nil_r.
Qed.

(** [verifyOTP] returns [valid: true] only as the result [Valid]. *)
Lemma verifyOTP_valid_is_Valid now1 now2 (email otp : JSValue) (st : Store)
    (result : VerifyResult) :
  completion (verifyOTP bcrypt_compare now1 now2 email otp st)
  = Normal result ->
  valid result = true ->
  result = Valid.
Proof.
  unfold verifyOTP.
  destruct (isValidEmail email); cbn [negb completion];
    [| intros [= <-]; discriminate].
  destruct (isValidOTPFormat otp); cbn [negb completion];
    [| intros [= <-]; discriminate].
  destruct email as [| | | | e]; try discriminate.
  destruct otp as [| | | | o]; try discriminate.
  cbv zeta.
  destruct (st !! normalize e) as [stored |]; cbn [completion];
    [| intros [= <-]; discriminate].
  destruct (now1 >? expiresAt stored); cbn [completion];
    [intros [= <-]; discriminate |].
  destruct (attempts stored >=? MAX_VERIFICATION_ATTEMPTS);
    cbn [completion]; [intros [= <-]; discriminate |].
  cbn [otpHash].
  destruct (bcrypt_compare o (otpHash stored)); cbn [completion];
    intros [= <-]; [reflexivity | discriminate].
Qed.

(** Issue, then verify.  Assumed: the user is registered, unverified and
    has a valid email; the draw is in the range of [crypto.randomInt];
    [bcrypt] accepts a six-digit code against its own hash; the clock that
    [storeOTP] reads in its cleanup test is no later than the expiry it
    has just set, [s3 <= s1 + OTP_EXPIRATION_MS], so that the record is
    kept; and [verifyOTP] reads a clock no later than that expiry,
    [v1 <= s1 + OTP_EXPIRATION_MS].  Then [sendOTP] returns the generated
    code, whether or not the mail could be sent (a mail is recorded only
    when the transport accepted it), and leaves the users as they were;
    [verifyOTPCode] with that code returns the user with [verified: true],
    marks the row verified and removes the record; a further
    [verifyOTPCode] throws "User already verified" and changes nothing. *)
Theorem sendOTP_then_verifyOTPCode
    draw s1 s2 s3 salt transport (email : string) (w : World) (user : User)
    v1 v2 u1 u2 :
  (forall data slt,
      isValidOTPFormat (JSStr data) = true ->
      bcrypt_compare data (bcrypt_hash data 10 slt) = true) ->
  users w !! email = Some user ->
  user_verified user = false ->
  isValidEmail email = true ->
  randomIntRange generateOTP_min (generateOTP_max + 1) draw ->
  s3 <= s1 + OTP_EXPIRATION_MS ->
  v1 <= s1 + OTP_EXPIRATION_MS ->
  let code := generateOTP draw in
  let sent := send draw s1 s2 s3 salt transport email w in
  let checked := verifyCode v1 v2 email code sent.2 in
  let again := verifyCode u1 u2 email code checked.2 in
  sent.1 = Normal code /\
  users sent.2 = users w /\
  sentMail sent.2 = (sentMail w ++ mailed transport email code)%list /\
  checked.1 = Normal (selectUser (markVerified user)) /\
  users checked.2 = <[email := markVerified user]> (users w) /\
  otpStore checked.2 !! normalize email = None /\
  again = (Throw "User already verified", checked.2).
Proof.
  intros Hbcrypt Huser Hunverified He Hdraw Hs Hv code sent checked again.
  assert (Ho : isValidOTPFormat code = true) by now apply generateOTP_format.
  assert (Hwf : wellFormed email code) by (split; assumption).
  set (k := normalize email).
  set (fresh := freshRecord bcrypt_hash s1 s2 salt code).
  assert (Hsent :
    sent = (Normal code,
            mkWorld (users w) (<[k := fresh]> (otpStore w))
              (sentMail w ++ mailed transport email code)))
    by (apply (sendOTP_issues draw s1 s2 s3 salt transport email w user);
        assumption).
  assert (Hchecked :
    checked = (Normal (selectUser (markVerified user)),
               mkWorld (<[email := markVerified user]> (users w))
                 (delete k (<[k := fresh]> (otpStore w)))
                 (sentMail w ++ mailed transport email code))).
  { subst checked. rewrite Hsent. cbn [snd]. unfold verifyOTPCode.
    cbn [users otpStore sentMail]. rewrite Huser, Hunverified.
    rewrite (verifyOTP_match bcrypt_compare v1 v2 email code _ fresh);
      try assumption.
    - reflexivity.
    - apply lookup_insert_eq.
    - cbn. unfold MAX_VERIFICATION_ATTEMPTS. lia.
    - cbn. apply Hbcrypt. exact Ho. }
  assert (Hagain : again = (Throw "User already verified", checked.2)).
  { subst again. rewrite Hchecked. cbn [snd]. unfold verifyOTPCode.
    cbn [users]. rewrite lookup_insert_eq. reflexivity. }
  rewrite Hagain, Hchecked, Hsent. cbn [fst snd users otpStore sentMail].
  repeat split. apply lookup_delete_eq.
Qed.

(** A user is marked verified by a [Valid] result of [verifyOTP] and by
    nothing else.  When [verifyOTPCode] returns, [verifyOTP] has returned
    [Valid] for the email and code on the store as it was, the user was
    registered and unverified, and the only change to the table is
    [verified: true] on that row.  When it throws, the table is as it was.
    No other row is ever changed, no mail is sent, and for an unknown or
    already verified user the store is not touched either, so no attempt
    is used up. *)
Theorem verifyOTPCode_verifies_only_on_Valid
    now1 now2 (email : string) (otp : JSValue) (w : World) :
  let out := verifyCode now1 now2 email otp w in
  (forall view,
      out.1 = Normal view ->
      exists user,
        users w !! email = Some user /\
        user_verified user = false /\
        completion (verifyOTP bcrypt_compare now1 now2 email otp (otpStore w))
        = Normal Valid /\
        view = selectUser (markVerified user) /\
        users out.2 = <[email := markVerified user]> (users w)) /\
  (forall message, out.1 = Throw message -> users out.2 = users w) /\
  (forall e', e' <> email -> users out.2 !! e' = users w !! e') /\
  (users w !! email = None \/
   (exists user, users w !! email = Some user /\ user_verified user = true) ->
   out.2 = w) /\
  sentMail out.2 = sentMail w.
Proof.
  cbv zeta. unfold verifyOTPCode.
  destruct (users w !! email) as [user |] eqn:Huser.
  2: { cbn [fst snd]. repeat split; try discriminate; auto. }
  destruct (user_verified user) eqn:Hverified.
  { cbn [fst snd]. repeat split; try discriminate; auto. }
  cbv zeta.
  destruct (completion (verifyOTP bcrypt_compare now1 now2 email otp
                          (otpStore w))) as [result | message] eqn:Hr.
  2: { cbn [fst snd users sentMail]. repeat split; try discriminate; auto.
       intros [Hnone | (user' & Hsome & Htrue)]; congruence. }
  destruct (valid result) eqn:Hvalid; cbn [negb fst snd users sentMail].
  - pose proof (verifyOTP_valid_is_Valid _ _ _ _ _ _ Hr Hvalid) as ->.
    repeat split; try discriminate.
    + intros view [= <-]. exists user. repeat split; auto.
    + intros e' Hne. apply lookup_insert_ne. congruence.
    + intros [Hnone | (user' & Hsome & Htrue)]; congruence.
  - repeat split; try discriminate; auto.
    intros [Hnone | (user' & Hsome & Htrue)]; congruence.
Qed.

(** What [verifyOTPCode] throws when the code is not accepted is the
    reason [verifyOTP] gives. *)
Lemma verifyOTPCode_throws_reason now1 now2 (email otp : string) (w : World)
    (user : User) (result : VerifyResult) :
  users w !! email = Some user ->
  user_verified user = false ->
  completion (verifyOTP bcrypt_compare now1 now2 email otp (otpStore w))
  = Normal result ->
  valid result = false ->
  verifyCode now1 now2 email otp w =
  (Throw (reasonOrDefault result),
   mkWorld (users w)
     (storeAfter (verifyOTP bcrypt_compare now1 now2 email otp (otpStore w)))
     (sentMail w)).
Proof.
  intros Huser Hunverified Hr Hvalid. unfold verifyOTPCode.
  rewrite Huser, Hunverified. cbv zeta. rewrite Hr, Hvalid. reflexivity.
Qed.

(** A resend supersedes.  Assumed: the user is registered, unverified and
    has a valid email; the draw is in the range of [crypto.randomInt]; and
    the clock that [storeOTP] reads in its cleanup test is no later than
    the expiry it has just set, [now3 <= now1 + OTP_EXPIRATION_MS], so
    that the record is kept.  Then [resendOTP] returns a new code and
    replaces whatever record the email had, an exhausted one included, by
    a record for the new code with no attempt made and a new expiry, so
    the full budget is back; a six-digit code that [bcrypt] rejects
    against the new hash, the old one say, presented no later than the
    new expiry, is turned down with "Invalid OTP" and the user stays
    unverified. *)
Theorem resendOTP_supersedes
    draw now1 now2 now3 salt transport (email : string) (w : World)
    (user : User) :
  users w !! email = Some user ->
  user_verified user = false ->
  isValidEmail email = true ->
  randomIntRange generateOTP_min (generateOTP_max + 1) draw ->
  now3 <= now1 + OTP_EXPIRATION_MS ->
  let code := generateOTP draw in
  let out := resend draw now1 now2 now3 salt transport email w in
  out.1 = Normal code /\
  otpStore out.2 !! normalize email
  = Some (mkOTPRecord (bcrypt_hash code 10 salt) (now1 + OTP_EXPIRATION_MS) 0
            now2 None) /\
  budgetLeft (normalize email) (otpStore out.2) = MAX_VERIFICATION_ATTEMPTS /\
  (forall (old : string) v1 v2,
      isValidOTPFormat old = true ->
      v1 <= now1 + OTP_EXPIRATION_MS ->
      bcrypt_compare old (bcrypt_hash code 10 salt) = false ->
      let out' := verifyCode v1 v2 email old out.2 in
      out'.1 = Throw "Invalid OTP" /\ users out'.2 = users w).
Proof.
  intros Huser Hunverified He Hdraw Hnow code out. subst out.
  unfold resendOTP.
  rewrite (sendOTP_issues draw now1 now2 now3 salt transport email w user)
    by assumption.
  cbn [fst snd otpStore]. fold code.
  split; [reflexivity |].
  split; [apply lookup_insert_eq |].
  split.
  { unfold budgetLeft. rewrite lookup_insert_eq. cbn.
    unfold MAX_VERIFICATION_ATTEMPTS. lia. }
  intros old v1 v2 Hold Hv Hcmp.
  rewrite (verifyOTPCode_throws_reason v1 v2 email old _ user Invalid);
    cbn [users otpStore]; try assumption; try reflexivity.
  - split; reflexivity.
  - rewrite (verifyOTP_mismatch bcrypt_compare v1 v2 email old _
               (freshRecord bcrypt_hash now1 now2 salt code));
      try assumption; try reflexivity; try (split; assumption);
      try apply lookup_insert_eq.
Qed.

(** What stops [sendOTP]: an unknown user, a verified user, and an email
    that is registered but is not of valid form; each throws its message
    and leaves the users, the store and the mail that was sent as they
    were.  Whatever happens, the table of users is not changed. *)
Theorem sendOTP_refusals
    draw now1 now2 now3 salt transport (email : string) (w : World) :
  let out := send draw now1 now2 now3 salt transport email w in
  (users w !! email = None -> out = (Throw "User not found", w)) /\
  (forall user,
      users w !! email = Some user -> user_verified user = true ->
      out = (Throw "User already verified", w)) /\
  (forall user,
      users w !! email = Some user -> user_verified user = false ->
      isValidEmail email = false ->
      out = (Throw "Invalid email format", w)) /\
  users out.2 = users w.
Proof.
  cbv zeta. unfold sendOTP. repeat split.
  - intros ->. reflexivity.
  - intros user -> ->. reflexivity.
  - intros user -> -> He. unfold storeOTP. rewrite He.
    cbn [negb completion storeAfter]. destruct w; reflexivity.
  - destruct (users w !! email) as [user |]; [| reflexivity].
    destruct (user_verified user); [reflexivity |].
    destruct (completion (storeOTP _ _ _ _ _ _ _ _)); [| reflexivity].
    destruct (sendOTPEmail _ _ _); reflexivity.
Qed.

End ServiceFacts.

(** ** The service, evaluated *)

Lemma ServiceScenario_student :
  users ServiceScenario.world !! "a@b.com" = Some ServiceScenario.student.
Proof. apply lookup_singleton_eq. Qed.

Lemma ServiceScenario_draw :
  randomIntRange generateOTP_min (generateOTP_max + 1) 482193.
Proof. unfold randomIntRange, generateOTP_min, generateOTP_max. lia. Qed.

(** The code is issued although the mail transport fails, and it
    verifies the student. *)
Lemma sendOTP_then_verifyOTPCode_witness :
  (sendOTP PlainBcrypt.hash 482193 0 0 1 "salt" (Throw "ECONNREFUSED")
     "a@b.com" ServiceScenario.world).1
  = Normal "482193" /\
  sentMail
    (sendOTP PlainBcrypt.hash 482193 0 0 1 "salt" (Throw "ECONNREFUSED")
       "a@b.com" ServiceScenario.world).2
  = [] /\
  (verifyOTPCode PlainBcrypt.compare 1000 1001 "a@b.com" "482193"
     (sendOTP PlainBcrypt.hash 482193 0 0 1 "salt" (Throw "ECONNREFUSED")
        "a@b.com" ServiceScenario.world).2).1
  = Normal (mkUserView "user-1" "a@b.com" None "STUDENT" true true 0).
Proof.
  destruct (sendOTP_then_verifyOTPCode PlainBcrypt.hash PlainBcrypt.compare
              482193 0 0 1 "salt" (Throw "ECONNREFUSED") "a@b.com"
              ServiceScenario.world ServiceScenario.student
              1000 1001 2000 2001)
    as (Hcode & _ & Hmail & Hchecked & _).
  - intros data slt _. apply PlainBcrypt_compare_hash.
  - exact ServiceScenario_student.
  - reflexivity.
  - vm_compute. reflexivity.
  - exact ServiceScenario_draw.
  - vm_compute. discriminate.
  - vm_compute. discriminate.
  - split; [exact Hcode |]. split; [exact Hmail | exact Hchecked].
Defined.

(** After five wrong codes, a resend gives the full budget back and the
    first code is turned down. *)
Lemma resendOTP_supersedes_witness :
  (resendOTP PlainBcrypt.hash 771204 60000 60000 60001 "salt2"
     (Normal "message-2") "a@b.com"
     (mkWorld (users ServiceScenario.world) Scenario.afterFiveWrong [])).1
  = Normal "771204" /\
  budgetLeft "a@b.com" Scenario.afterFiveWrong = 0 /\
  budgetLeft (normalize "a@b.com")
    (otpStore
       (resendOTP PlainBcrypt.hash 771204 60000 60000 60001 "salt2"
          (Normal "message-2") "a@b.com"
          (mkWorld (users ServiceScenario.world) Scenario.afterFiveWrong
             [])).2)
  = MAX_VERIFICATION_ATTEMPTS /\
  (verifyOTPCode PlainBcrypt.compare 61000 61001 "a@b.com" "482193"
     (resendOTP PlainBcrypt.hash 771204 60000 60000 60001 "salt2"
        (Normal "message-2") "a@b.com"
        (mkWorld (users ServiceScenario.world) Scenario.afterFiveWrong
           [])).2).1
  = Throw "Invalid OTP".
Proof.
  destruct (resendOTP_supersedes PlainBcrypt.hash PlainBcrypt.compare
              771204 60000 60000 60001 "salt2" (Normal "message-2")
              "a@b.com"
              (mkWorld (users ServiceScenario.world) Scenario.afterFiveWrong
                 [])
              ServiceScenario.student)
    as (Hcode & _ & Hbudget & Hold).
  - exact ServiceScenario_student.
  - reflexivity.
  - vm_compute. reflexivity.
  - unfold randomIntRange, generateOTP_min, generateOTP_max. lia.
  - vm_compute. discriminate.
  - split; [exact Hcode |]. split; [vm_compute; reflexivity |].
    split; [exact Hbudget |].
    refine (proj1 (Hold "482193" 61000 61001 _ _ _)).
    + vm_compute. reflexivity.
    + vm_compute. discriminate.
    + vm_compute. reflexivity.
Defined.

(** ** The cost of the comparisons *)

Section Costs.

Variable bcrypt_hash : string -> Z -> string -> string.
Variable bcrypt_compare : string -> string -> bool.

Lemma madeWithTenRounds_delete k (st : Store) :
  madeWithTenRounds bcrypt_hash st ->
  madeWithTenRounds bcrypt_hash (delete k st).
Proof.
  intros Hmade k' stored Hk'. apply lookup_delete_Some in Hk' as [_ Hk'].
  eauto.
Qed.

Lemma madeWithTenRounds_insert k stored (st : Store) :
  (exists data salt, otpHash stored = bcrypt_hash data 10 salt) ->
  madeWithTenRounds bcrypt_hash st ->
  madeWithTenRounds bcrypt_hash (<[k := stored]> st).
Proof.
  intros Hentry Hmade k' stored' Hk'.
  apply lookup_insert_Some in Hk' as [[_ <-] | [_ Hk']]; eauto.
Qed.

(** Hashes enter the store through [storeOTP] only, and [verifyOTP] keeps
    the hash of the record it counts an attempt on. *)
Lemma otpCall_madeWithTenRounds (c : OTPCall) (st : Store) :
  madeWithTenRounds bcrypt_hash st ->
  madeWithTenRounds bcrypt_hash (otpCall bcrypt_hash bcrypt_compare c st).
Proof.
  intros Hmade.
  destruct c as [now1 now2 now3 salt email otp | now1 now2 email otp
                | email | | now]; cbn [otpCall].
  - unfold storeOTP.
    destruct (isValidEmail email); cbn [negb]; [| exact Hmade].
    destruct (isValidOTPFormat otp); cbn [negb]; [| exact Hmade].
    destruct email as [| | | | e]; try exact Hmade.
    destruct otp as [| | | | o]; try exact Hmade.
    cbv zeta. rewrite lookup_insert_eq. cbn [expiresAt].
    assert (Hfresh :
      madeWithTenRounds bcrypt_hash
        (<[normalize e := freshRecord bcrypt_hash now1 now2 salt o]> st))
      by (apply madeWithTenRounds_insert; [cbn; eauto | exact Hmade]).
    destruct (now3 >? now1 + OTP_EXPIRATION_MS); cbn [storeAfter];
      [apply madeWithTenRounds_delete |]; exact Hfresh.
  - unfold verifyOTP.
    destruct (isValidEmail email); cbn [negb]; [| exact Hmade].
    destruct (isValidOTPFormat otp); cbn [negb]; [| exact Hmade].
    destruct email as [| | | | e]; try exact Hmade.
    destruct otp as [| | | | o]; try exact Hmade.
    cbv zeta.
    destruct (st !! normalize e) as [stored |] eqn:Hst; [| exact Hmade].
    destruct (now1 >? expiresAt stored); cbn [storeAfter];
      [now apply madeWithTenRounds_delete |].
    destruct (attempts stored >=? MAX_VERIFICATION_ATTEMPTS);
      cbn [storeAfter]; [now apply madeWithTenRounds_delete |].
    assert (Hnew :
      madeWithTenRounds bcrypt_hash
        (<[normalize e := attempted now2 stored]> st))
      by (apply madeWithTenRounds_insert; [cbn; eauto | exact Hmade]).
    cbn [otpHash].
    destruct (bcrypt_compare o (otpHash stored)); cbn [storeAfter].
    + apply madeWithTenRounds_delete. exact Hnew.
    + apply madeWithTenRounds_insert; [cbn; eauto | exact Hnew].
  - unfold deleteOTP.
    destruct (isValidEmail email); cbn [negb]; [| exact Hmade].
    destruct email as [| | | | e]; try exact Hmade.
    cbn [storeAfter]. now apply madeWithTenRounds_delete.
  - cbn. intros k stored Hk. rewrite lookup_empty in Hk. discriminate.
  - rewrite cleanupCallback_store. intros k stored Hk.
    unfold cleanupExpired in Hk.
    apply map_lookup_filter_Some in Hk as [Hk _]. eauto.
Qed.

Lemma otpCalls_madeWithTenRounds (calls : list OTPCall) :
  madeWithTenRounds bcrypt_hash (otpCalls bcrypt_hash bcrypt_compare calls ∅).
Proof.
  unfold otpCalls.
  assert (H0 : madeWithTenRounds bcrypt_hash ∅)
    by (intros k stored Hk; rewrite lookup_empty in Hk; discriminate).
  revert H0. generalize (∅ : Store) as st.
  induction calls as [| c calls IH]; intros st Hst; [exact Hst |].
  cbn [fold_left]. apply IH. now apply otpCall_madeWithTenRounds.
Qed.

(** C6 (as the code has it): on every store the module can reach, a
    [verifyOTP] on well-formed arguments that returns [NotFound],
    [Expired] or [Invalid] has made exactly one comparison, and the three
    comparisons cost the same: [NotFound] and [Expired] compare the
    supplied code with the dummy hash, which names the cost factor 10, and
    [Invalid] compares it with the stored hash, which [storeOTP] had
    [bcrypt.hash] make with 10 salt rounds; with a [bcrypt] that writes the
    salt rounds into the hash as its cost factor, each of the three calls
    is one comparison at cost factor 10.  A call that returns
    [AttemptsExceeded] has made no comparison at all.  These four are the
    outcomes of a call on well-formed arguments that does not return
    [Valid]. *)
Theorem C6_comparisons_of_equal_cost
    (calls : list OTPCall) now1 now2 (email otp : string) :
  (forall data salt, costFactor (bcrypt_hash data 10 salt) = Some 10) ->
  isValidEmail email = true ->
  isValidOTPFormat otp = true ->
  let st := otpCalls bcrypt_hash bcrypt_compare calls ∅ in
  let r := verifyOTP bcrypt_compare now1 now2 email otp st in
  costFactor DUMMY_HASH = Some 10 /\
  (completion r = Normal NotFound ->
     bcryptCalls r = [CompareCall otp DUMMY_HASH] /\
     map callCost (bcryptCalls r) = [Some 10]) /\
  (completion r = Normal Expired ->
     bcryptCalls r = [CompareCall otp DUMMY_HASH] /\
     map callCost (bcryptCalls r) = [Some 10]) /\
  (completion r = Normal Invalid ->
     exists stored data salt,
       st !! normalize email = Some stored /\
       otpHash stored = bcrypt_hash data 10 salt /\
       bcryptCalls r = [CompareCall otp (otpHash stored)] /\
       map callCost (bcryptCalls r) = [Some 10]) /\
  (completion r = Normal AttemptsExceeded -> bcryptCalls r = []) /\
  (completion r <> Normal Valid ->
     completion r = Normal NotFound \/ completion r = Normal Expired \/
     completion r = Normal Invalid \/
     completion r = Normal AttemptsExceeded).
Proof.
  intros Hcost He Ho st r.
  destruct (verifyOTP_comparisons bcrypt_compare now1 now2 email otp st
              He Ho) as (Habsent & Hexpired & Hinvalid & Hexceeded & Hrest).
  fold r in Habsent, Hexpired, Hinvalid, Hexceeded, Hrest.
  split; [reflexivity |].
  split; [| split; [| split; [| split]]].
  - intros H. rewrite (Habsent H). split; reflexivity.
  - intros H. rewrite (Hexpired H). split; reflexivity.
  - intros H. destruct (Hinvalid H) as (stored & Hst & Hcalls).
    destruct (otpCalls_madeWithTenRounds calls _ _ Hst)
      as (data & salt & Hhash).
    exists stored, data, salt. rewrite Hcalls.
    repeat split; try assumption.
    cbn [map callCost]. now rewrite Hhash, Hcost.
  - exact Hexceeded.
  - exact Hrest.
Qed.

End Costs.

Lemma CostedBcrypt_cost (data salt : string) :
  costFactor (CostedBcrypt.hash data 10 salt) = Some 10.
Proof. reflexivity. Qed.

(** C6 on a store with the code 482193 issued for a@b.com: a wrong code
    and a code for an unknown email cost one comparison at cost factor 10
    each. *)
Lemma C6_comparisons_of_equal_cost_witness :
  completion
    (verifyOTP CostedBcrypt.compare 1000 1001 "a@b.com" "000000"
       (otpCalls CostedBcrypt.hash CostedBcrypt.compare
          [CallStore 0 0 1 "salt" "a@b.com" "482193"] ∅))
  = Normal Invalid /\
  map callCost
    (bcryptCalls
       (verifyOTP CostedBcrypt.compare 1000 1001 "a@b.com" "000000"
          (otpCalls CostedBcrypt.hash CostedBcrypt.compare
             [CallStore 0 0 1 "salt" "a@b.com" "482193"] ∅)))
  = [Some 10] /\
  completion
    (verifyOTP CostedBcrypt.compare 1000 1001 "c@d.org" "000000"
       (otpCalls CostedBcrypt.hash CostedBcrypt.compare
          [CallStore 0 0 1 "salt" "a@b.com" "482193"] ∅))
  = Normal NotFound /\
  map callCost
    (bcryptCalls
       (verifyOTP CostedBcrypt.compare 1000 1001 "c@d.org" "000000"
          (otpCalls CostedBcrypt.hash CostedBcrypt.compare
             [CallStore 0 0 1 "salt" "a@b.com" "482193"] ∅)))
  = [Some 10].
Proof.
  assert (Hinvalid :
    completion
      (verifyOTP CostedBcrypt.compare 1000 1001 "a@b.com" "000000"
         (otpCalls CostedBcrypt.hash CostedBcrypt.compare
            [CallStore 0 0 1 "salt" "a@b.com" "482193"] ∅))
    = Normal Invalid) by (vm_compute; reflexivity).
  assert (Habsent :
    completion
      (verifyOTP CostedBcrypt.compare 1000 1001 "c@d.org" "000000"
         (otpCalls CostedBcrypt.hash CostedBcrypt.compare
            [CallStore 0 0 1 "salt" "a@b.com" "482193"] ∅))
    = Normal NotFound) by (vm_compute; reflexivity).
  destruct (C6_comparisons_of_equal_cost CostedBcrypt.hash
              CostedBcrypt.compare
              [CallStore 0 0 1 "salt" "a@b.com" "482193"] 1000 1001
              "a@b.com" "000000" CostedBcrypt_cost)
    as (_ & _ & _ & Hwrong & _).
  { vm_compute. reflexivity. }
  { vm_compute. reflexivity. }
  destruct (C6_comparisons_of_equal_cost CostedBcrypt.hash
              CostedBcrypt.compare
              [CallStore 0 0 1 "salt" "a@b.com" "482193"] 1000 1001
              "c@d.org" "000000" CostedBcrypt_cost)
    as (_ & Hunknown & _).
  { vm_compute. reflexivity. }
  { vm_compute. reflexivity. }
  destruct (Hwrong Hinvalid) as (stored & data & salt & _ & _ & _ & Hcost1).
  destruct (Hunknown Habsent) as [_ Hcost2].
  split; [exact Hinvalid |]. split; [exact Hcost1 |].
  split; [exact Habsent | exact Hcost2].
Defined.
